(** * dbusconn/protocol.go: the device and bridge registry

    A shallow embedding of the registry methods of [protocol.go]
    ([AddDevice], [RemoveDevice], [AddBridge], [RemoveBridge], [setReady],
    [IsReady], [setLogLevel], [exportRootProtocolObject]) as programs of a
    state monad over one process state, and the properties of the registry
    proved about them.

    Go objects reached through pointers ([*Protocol], [*Device]) live in two
    heaps indexed by locations, so that an object stays observable after it
    has been unlinked from the map that owned it.  A call is run by one
    goroutine; it ends by returning, by waiting on a [sync.Mutex] somebody
    holds, or by a run-time panic. *)

From Stdlib Require Import Init.Byte.
From stdpp Require Import gmap strings list fin_maps.

Local Open Scope string_scope.
Local Open Scope list_scope.

(** ** Data model *)

(** Heap locations; a Go pointer is a location, [nil] is the absence of
    one. *)
Abbreviation loc := positive (only parsing).

(** go-logging's [Level]. *)
Inductive Level := CRITICAL | ERROR | WARNING | NOTICE | INFO | DEBUG.

(** go-logging's [levelNames], read by [Level.String]. *)
Definition Level_String (l : Level) : string :=
  match l with
  | CRITICAL => "CRITICAL" | ERROR => "ERROR" | WARNING => "WARNING"
  | NOTICE => "NOTICE" | INFO => "INFO" | DEBUG => "DEBUG"
  end.

(** godbus' predefined [dbus.Error] values. *)
Inductive dbus_Error :=
  ErrMsgInvalidArg | ErrMsgNoObject | ErrMsgUnknownMethod | ErrMsgUnknownInterface.

(** The dynamically typed value of a [prop.Change] ([interface{}] holding
    one of D-Bus' basic types). *)
Inductive Variant :=
| VString (s : string)
| VBool (b : bool)
| VInt (n : Z)
| VBytes (bs : list byte).

Record Change := mkChange {
  Iface : string;
  Name : string;
  Value : Variant }.

(** Modelled from the spec: the [Item] type is declared outside
    protocol.go; an item is identified by its device id and item id and has
    no further state here. *)
Record Item := mkItem {
  item_DevID : string;
  item_ItemID : string }.

(** Modelled from the spec: the [Device] type is declared outside
    protocol.go; a device has its id, communication id, type id, type
    version, an opaque options blob, its map of items and its own lock
    ([device.Items], [device.Lock] in [RemoveDevice]). *)
Record Device := mkDevice {
  DevID : string;
  ComID : string;
  TypeID : string;
  TypeVersion : string;
  Options : list byte;
  Items : gmap string Item;
  device_mutex : bool }.

(** An implementation of the [ProtocolInterface] callbacks, supplied by the
    application; only its identity matters to the registry. *)
Inductive ProtocolInterface := Application (id : nat).

(** [Protocol]: the callbacks, the device map, the readiness flag and the
    embedded [sync.Mutex] ([true] when held).  The fields [dc] and [log]
    point to the one [Dbus] of the process and to its logger. *)
Record Protocol := mkProtocol {
  Callbacks : option ProtocolInterface;
  Devices : gmap string loc;
  ready : bool;
  mutex : bool }.

(** [BridgeProto]: a bridge wraps its own [Protocol]. *)
Record BridgeProto := mkBridgeProto {
  bridge_Protocol : loc }.

Inductive EmitType := EmitFalse | EmitTrue | EmitInvalidates.

(** What [initProtocolProp] sets of a [prop.Prop]; the callback is always
    [setLogLevel]. *)
Record Prop_ := mkProp {
  prop_Value : string;
  prop_Writable : bool;
  prop_Emit : EmitType }.

(** The property table handed to [prop.Export]: interface, property,
    description. *)
Abbreviation PropsSpec := (list (string * list (string * Prop_))) (only parsing).

(** The bus connection, seen from the registry: whether [conn.Export] and
    [prop.Export] report an error for a path (and interface). *)
Record Conn := mkConn {
  export_err : string → string → option string;
  prop_export_err : string → option string }.

(** An object handed to [conn.Export]. *)
Inductive Exported :=
| ObjProtocol (p : loc)
| ObjRootProto.

(** A callback started in its own goroutine. *)
Inductive Call :=
| CbAddDevice (device : option loc)
| CbRemoveDevice (devID : string).

(** The effects of a call that are visible outside its goroutine, in the
    order they happen: bus traffic, goroutines started, logger calls, and
    writes to the registry's maps. *)
Inductive Event :=
| ConnExport (obj : Exported) (path iface : string)
| PropExport (path : string) (spec : PropsSpec)
| ConnEmit (path name : string)
| ExportDevice (devID : string)
| EmitDeviceAdded (devID : string)
| EmitDeviceRemoved (devID : string)
| Go (h : ProtocolInterface) (c : Call)
| LogCall (module : string) (lvl : Level) (args : list string)
| SetDevice (p : loc) (devID : string) (device : loc)
| DeleteDevice (p : loc) (devID : string)
| DeleteItem (device : loc) (itemID : string)
| SetBridge (bridgeID : string) (bridge : BridgeProto)
| DeleteBridge (bridgeID : string).

(** The bus signals among the events. *)
Definition is_signal (e : Event) : bool :=
  match e with
  | ConnEmit _ _ | EmitDeviceAdded _ | EmitDeviceRemoved _ => true
  | _ => false
  end.

(** The process state: the fields of [Dbus] and of its [RootProto] that
    protocol.go reads or writes, the two heaps, go-logging's table of levels
    per module, and the events so far. *)
Record State := mkState {
  conn : option Conn;
  ProtocolName : string;
  Log_Module : string;
  root_Protocol : option loc;
  root_properties : option (string * PropsSpec);
  root_log_Module : string;
  Bridges : gmap string BridgeProto;
  protocols : gmap loc Protocol;
  devices : gmap loc Device;
  levels : gmap string Level;
  trace : list Event }.

Definition with_trace (t : list Event) (s : State) : State :=
  mkState (conn s) (ProtocolName s) (Log_Module s) (root_Protocol s)
    (root_properties s) (root_log_Module s) (Bridges s) (protocols s)
    (devices s) (levels s) t.

Definition with_protocols (h : gmap loc Protocol) (s : State) : State :=
  mkState (conn s) (ProtocolName s) (Log_Module s) (root_Protocol s)
    (root_properties s) (root_log_Module s) (Bridges s) h
    (devices s) (levels s) (trace s).

Definition with_devices (h : gmap loc Device) (s : State) : State :=
  mkState (conn s) (ProtocolName s) (Log_Module s) (root_Protocol s)
    (root_properties s) (root_log_Module s) (Bridges s) (protocols s)
    h (levels s) (trace s).

Definition with_Bridges (b : gmap string BridgeProto) (s : State) : State :=
  mkState (conn s) (ProtocolName s) (Log_Module s) (root_Protocol s)
    (root_properties s) (root_log_Module s) b (protocols s)
    (devices s) (levels s) (trace s).

Definition with_levels (l : gmap string Level) (s : State) : State :=
  mkState (conn s) (ProtocolName s) (Log_Module s) (root_Protocol s)
    (root_properties s) (root_log_Module s) (Bridges s) (protocols s)
    (devices s) l (trace s).

Definition with_properties (p : option (string * PropsSpec)) (s : State) : State :=
  mkState (conn s) (ProtocolName s) (Log_Module s) (root_Protocol s)
    p (root_log_Module s) (Bridges s) (protocols s)
    (devices s) (levels s) (trace s).

(** ** The monad of calls *)

(** How a call ends: it returns; or its goroutine waits in [Lock] for a
    mutex that is held; or it panics (nil dereference, failed type
    assertion, unlock of an unlocked mutex).  The state is the one reached
    at that point. *)
Inductive outcome (A : Type) :=
| Returned (a : A) (s : State)
| Blocked (s : State)
| Panicked (s : State).
Arguments Returned {A} a s.
Arguments Blocked {A} s.
Arguments Panicked {A} s.

Definition state_of {A} (o : outcome A) : State :=
  match o with Returned _ s | Blocked s | Panicked s => s end.

Definition M (A : Type) : Type := State → outcome A.

#[global] Instance M_ret : MRet M := λ A a s, Returned a s.
#[global] Instance M_bind : MBind M := λ A B k m s,
  match m s with
  | Returned a s' => k a s'
  | Blocked s' => Blocked s'
  | Panicked s' => Panicked s'
  end.

Definition gets {A} (f : State → A) : M A := λ s, Returned (f s) s.
Definition modify (f : State → State) : M unit := λ s, Returned tt (f s).
Definition block {A} : M A := λ s, Blocked s.
Definition panic {A} : M A := λ s, Panicked s.

(** Append an event to the trace. *)
Definition record (e : Event) : M unit :=
  modify (λ s, with_trace (trace s ++ [e]) s).

(** Dereference a pointer that may be nil. *)
Definition deref {A} (p : option A) : M A :=
  match p with Some l => mret l | None => panic end.

Definition get_protocol (p : loc) : M Protocol :=
  o ← gets (λ s, protocols s !! p);
  match o with Some P => mret P | None => panic end.

Definition get_device (d : loc) : M Device :=
  o ← gets (λ s, devices s !! d);
  match o with Some D => mret D | None => panic end.

Definition set_mutex (b : bool) (P : Protocol) : Protocol :=
  mkProtocol (Callbacks P) (Devices P) (ready P) b.
Definition set_ready (b : bool) (P : Protocol) : Protocol :=
  mkProtocol (Callbacks P) (Devices P) b (mutex P).
Definition set_Devices (m : gmap string loc) (P : Protocol) : Protocol :=
  mkProtocol (Callbacks P) m (ready P) (mutex P).
Definition set_device_mutex (b : bool) (D : Device) : Device :=
  mkDevice (DevID D) (ComID D) (TypeID D) (TypeVersion D) (Options D) (Items D) b.
Definition set_Items (m : gmap string Item) (D : Device) : Device :=
  mkDevice (DevID D) (ComID D) (TypeID D) (TypeVersion D) (Options D) m
    (device_mutex D).

(** Update the protocol at [p] in place. *)
Definition update_protocol (p : loc) (f : Protocol → Protocol) : M unit :=
  P ← get_protocol p;
  modify (λ s, with_protocols (<[p := f P]> (protocols s)) s).

Definition update_device (d : loc) (f : Device → Device) : M unit :=
  D ← get_device d;
  modify (λ s, with_devices (<[d := f D]> (devices s)) s).

(** [sync.Mutex]: [Lock] waits while the mutex is held, whoever holds it (a
    Go mutex is not reentrant); [Unlock] of a mutex that is not held is a
    fatal error. *)
Definition Lock (p : loc) : M unit :=
  P ← get_protocol p;
  if mutex P then block else update_protocol p (set_mutex true).

Definition Unlock (p : loc) : M unit :=
  P ← get_protocol p;
  if mutex P then update_protocol p (set_mutex false) else panic.

Definition device_Lock (d : loc) : M unit :=
  D ← get_device d;
  if device_mutex D then block else update_device d (set_device_mutex true).

Definition device_Unlock (d : loc) : M unit :=
  D ← get_device d;
  if device_mutex D then update_device d (set_device_mutex false) else panic.

(** [for k := range m { body }] over the keys of a map.  Go leaves the order
    of the keys unspecified; the order of [map_to_list] stands for it.  The
    bodies in protocol.go delete no key but the current one, so iterating
    over the keys present at the start visits what Go visits. *)
Definition keys {V} (m : gmap string V) : list string := (map_to_list m).*1.

Fixpoint for_range (ks : list string) (body : string → M unit) : M unit :=
  match ks with
  | [] => mret tt
  | k :: ks' => body k;; for_range ks' body
  end.

(** ** The helpers of the package that protocol.go calls *)

(** [l.Warning(args...)] and the like on a logger of module [module]. *)
Definition log (module : State → string) (lvl : Level) (args : list string)
  : M unit :=
  m ← gets module;
  record (LogCall m lvl args).

(** [dc.conn.Export(obj, path, iface)]: a nil connection is dereferenced;
    otherwise the request goes out and its error, if any, comes back. *)
Definition conn_Export (obj : Exported) (path iface : string)
  : M (option string) :=
  c ← gets conn;
  match c with
  | None => panic
  | Some c => record (ConnExport obj path iface);; mret (export_err c path iface)
  end.

(** [dc.conn.Emit(path, name)]; protocol.go drops its result. *)
Definition conn_Emit (path name : string) : M unit :=
  c ← gets conn;
  match c with
  | None => panic
  | Some _ => record (ConnEmit path name)
  end.

(** [prop.Export(dc.conn, path, propsSpec)]: the exported properties, or an
    error. *)
Definition prop_Export (path : string) (spec : PropsSpec)
  : M (string * PropsSpec + string) :=
  c ← gets conn;
  match c with
  | None => panic
  | Some c =>
      record (PropExport path spec);;
      mret (match prop_export_err c path with
            | Some e => inr e
            | None => inl (path, spec)
            end)
  end.

(** go-logging's [SetLevel(level, module)] and [GetLevel(module)] on the
    process-wide table of levels: a module without an entry has the level of
    the empty module name, and [DEBUG] when that has none either. *)
Definition logging_SetLevel (level : Level) (module : string) : M unit :=
  modify (λ s, with_levels (<[module := level]> (levels s)) s).

Definition logging_GetLevel (module : string) : M Level :=
  gets (λ s, match levels s !! module with
             | Some l => l
             | None => default DEBUG (levels s !! "")
             end).

(** [&Protocol{ready: false, dc: dc, Devices: make(map[string]*Device),
    log: dc.Log}]: a new object in the heap, with no callbacks and its mutex
    free. *)
Definition new_Protocol : M loc :=
  l ← gets (λ s, fresh (dom (protocols s)));
  modify (λ s, with_protocols (<[l := mkProtocol None ∅ false false]> (protocols s)) s);;
  mret l.

(** Modelled from the spec: [isNil] is declared outside protocol.go; the
    callback hook is notified when the protocol has one. *)
Definition isNil (c : option ProtocolInterface) : bool :=
  match c with None => true | Some _ => false end.

(** Modelled from the spec: [initDevice] is declared outside protocol.go;
    it constructs the device from its identity and attributes, with no item
    and its lock free, and returns a pointer to it. *)
Definition initDevice (devID comID typeID typeVersion : string)
    (options : list byte) (p : loc) : M loc :=
  d ← gets (λ s, fresh (dom (devices s)));
  modify (λ s, with_devices
    (<[d := mkDevice devID comID typeID typeVersion options ∅ false]> (devices s)) s);;
  mret d.

(** Modelled from the spec: [exportDeviceOnDbus] is declared outside
    protocol.go; it requests the bus export of the device. *)
Definition exportDeviceOnDbus (device : option loc) : M unit :=
  d ← deref device;
  D ← get_device d;
  record (ExportDevice (DevID D)).

(** Modelled from the spec: [emitDeviceAdded] is declared outside
    protocol.go; it emits the "device added" bus signal for the device. *)
Definition emitDeviceAdded (device : loc) : M unit :=
  D ← get_device device;
  record (EmitDeviceAdded (DevID D)).

(** Modelled from the spec: [emitDeviceRemoved] is declared outside
    protocol.go; it emits the "device removed" bus signal for the id. *)
Definition emitDeviceRemoved (devID : string) : M unit :=
  record (EmitDeviceRemoved devID).

(** ** protocol.go *)

Definition propertyLogLevel : string := "LogLevel".
Definition signalBridgeAdded : string := "BridgeAdded".
Definition signalBridgeRemoved : string := "BridgeRemoved".

Definition setReady (p : loc) : M unit :=
  Lock p;;
  update_protocol p (set_ready true);;
  Unlock p.

Definition IsReady (p : loc) : M (bool * option dbus_Error) :=
  Lock p;;
  P ← get_protocol p;
  let ready := ready P in
  Unlock p;;
  mret (ready, None).

Definition AddDevice (p : loc) (devID comID typeID typeVersion : string)
    (options : list byte) : M (bool * option dbus_Error) :=
  Lock p;;
  P ← get_protocol p;
  let alreadyAdded := bool_decide (is_Some (Devices P !! devID)) in
  (if negb alreadyAdded then
     device ← initDevice devID comID typeID typeVersion options p;
     update_protocol p (λ P, set_Devices (<[devID := device]> (Devices P)) P);;
     record (SetDevice p devID device);;
     P ← get_protocol p;
     exportDeviceOnDbus (Devices P !! devID);;
     (if negb (isNil (Callbacks P)) then
        h ← deref (Callbacks P);
        P ← get_protocol p;
        record (Go h (CbAddDevice (Devices P !! devID)))
      else mret tt);;
     emitDeviceAdded device
   else mret tt);;
  Unlock p;;
  mret (alreadyAdded, None).

Definition RemoveDevice (p : loc) (devID : string) : M (option dbus_Error) :=
  Lock p;;
  P ← get_protocol p;
  match Devices P !! devID with
  | None =>
      Unlock p;;
      mret None
  | Some device =>
      device_Lock device;;
      D ← get_device device;
      for_range (keys (Items D)) (λ item,
        update_device device (λ D, set_Items (delete item (Items D)) D);;
        record (DeleteItem device item));;
      (if negb (isNil (Callbacks P)) then
         h ← deref (Callbacks P);
         record (Go h (CbRemoveDevice devID))
       else mret tt);;
      device_Unlock device;;
      update_protocol p (λ P, set_Devices (delete devID (Devices P)) P);;
      record (DeleteDevice p devID);;
      emitDeviceRemoved devID;;
      Unlock p;;
      mret None
  end.

Section Bus.

(** The constants [dbusPathPrefix] and [dbusProtocolInterface] are declared
    outside protocol.go, and [logging.LogLevel] belongs to go-logging: it
    returns a level and an error, [None] for [nil]. *)
Variable dbusPathPrefix : string.
Variable dbusProtocolInterface : string.
Variable logging_LogLevel : string → Level * option string.

Definition emitBridgeAdded (bridgeID : string) : M unit :=
  name ← gets ProtocolName;
  let path := dbusPathPrefix +:+ name +:+ "_" +:+ bridgeID in
  conn_Emit path (dbusProtocolInterface +:+ "." +:+ signalBridgeAdded).

Definition emitBridgeRemoved (bridgeID : string) : M unit :=
  name ← gets ProtocolName;
  let path := dbusPathPrefix +:+ name +:+ "_" +:+ bridgeID in
  conn_Emit path (dbusProtocolInterface +:+ "." +:+ signalBridgeRemoved).

Definition AddBridge (bridgeID : string) : M (bool * option dbus_Error) :=
  r ← gets root_Protocol;
  rp ← deref r;
  Lock rp;;
  bridges ← gets Bridges;
  let alreadyAdded := bool_decide (is_Some (bridges !! bridgeID)) in
  (if negb alreadyAdded then
     proto ← new_Protocol;
     name ← gets ProtocolName;
     let path := dbusPathPrefix +:+ name +:+ "_" +:+ bridgeID in
     err ← conn_Export (ObjProtocol proto) path dbusProtocolInterface;
     match err with
     | Some e => log Log_Module WARNING ["Fail to export Module dbus object"; e]
     | None => mret tt
     end;;
     let bridge := mkBridgeProto proto in
     modify (λ s, with_Bridges (<[bridgeID := bridge]> (Bridges s)) s);;
     record (SetBridge bridgeID bridge);;
     emitBridgeAdded bridgeID
   else mret tt);;
  Unlock rp;;
  mret (alreadyAdded, None).

Definition RemoveBridge (bridgeID : string) : M (option dbus_Error) :=
  r ← gets root_Protocol;
  rp ← deref r;
  Lock rp;;
  bridges ← gets Bridges;
  match bridges !! bridgeID with
  | None =>
      Unlock rp;;
      mret None
  | Some bridge =>
      Lock (bridge_Protocol bridge);;
      P ← get_protocol (bridge_Protocol bridge);
      for_range (keys (Devices P)) (λ device,
        RemoveDevice (bridge_Protocol bridge) device;; mret tt);;
      Unlock (bridge_Protocol bridge);;
      modify (λ s, with_Bridges (delete bridgeID (Bridges s)) s);;
      record (DeleteBridge bridgeID);;
      emitBridgeRemoved bridgeID;;
      Unlock rp;;
      mret None
  end.

Definition setLogLevel (c : Change) : M (option dbus_Error) :=
  match Value c with
  | VString loglevel =>
      match logging_LogLevel loglevel with
      | (level, None) =>
          module ← gets Log_Module;
          logging_SetLevel level module;;
          match Value c with
          | VString v => log root_log_Module INFO ["Log level has been set to "; v]
          | _ => panic
          end;;
          mret (Some ErrMsgInvalidArg)
      | (_, Some err) =>
          log root_log_Module ERROR [err];;
          mret None
      end
  | _ => panic
  end.

Definition initProtocolProp : M PropsSpec :=
  module ← gets root_log_Module;
  level ← logging_GetLevel module;
  mret [(dbusProtocolInterface,
         [(propertyLogLevel, mkProp (Level_String level) true EmitTrue)])].

Definition exportRootProtocolObject (protocol : string) : M (option loc * bool) :=
  c ← gets conn;
  match c with
  | None =>
      log Log_Module WARNING
        ["Unable to export Protocol dbus object because dbus connection nil"];;
      mret (None, false)
  | Some _ =>
      proto ← new_Protocol;
      let path := dbusPathPrefix +:+ protocol in
      propsSpec ← initProtocolProp;
      r ← prop_Export path propsSpec;
      match r with
      | inl properties => modify (with_properties (Some properties))
      | inr err =>
          log Log_Module ERROR ["Fail to export the properties of the protocol"; err]
      end;;
      err ← conn_Export (ObjProtocol proto) path dbusProtocolInterface;
      match err with
      | Some e =>
          log Log_Module WARNING ["Fail to export Module dbus object"; e];;
          mret (None, false)
      | None =>
          err ← conn_Export ObjRootProto path dbusProtocolInterface;
          match err with
          | Some e =>
              log Log_Module WARNING ["Fail to export Module dbus object"; e];;
              mret (None, false)
          | None => mret (Some proto, true)
          end
      end
  end.

End Bus.

(** ** Notions used in the statements *)

(** The state after a write to the protocol, or device, at a location, and
    after more events. *)
Definition put_protocol (p : loc) (P : Protocol) (s : State) : State :=
  with_protocols (<[p := P]> (protocols s)) s.
Definition put_device (d : loc) (D : Device) (s : State) : State :=
  with_devices (<[d := D]> (devices s)) s.
Definition add_trace (t : list Event) (s : State) : State :=
  with_trace (trace s ++ t) s.

(** The events of starting, or not, a callback goroutine. *)
Definition go_events (cb : option ProtocolInterface) (c : Call) : list Event :=
  match cb with Some h => [Go h c] | None => [] end.

(** The events of an export request: the request, and the warning logged
    when the connection reports an error. *)
Definition export_events (c : Conn) (module : string) (obj : Exported)
    (path iface : string) : list Event :=
  ConnExport obj path iface ::
  match export_err c path iface with
  | Some e => [LogCall module WARNING ["Fail to export Module dbus object"; e]]
  | None => []
  end.

(** [e1] occurs before [e2] in a trace. *)
Definition happens_before (e1 e2 : Event) (t : list Event) : Prop :=
  ∃ t1 t2 t3, t = t1 ++ e1 :: t2 ++ e2 :: t3.

(** The readiness flag of the protocol at [p] is [b]. *)
Definition ready_is (p : loc) (b : bool) (h : gmap loc Protocol) : Prop :=
  ∃ P, h !! p = Some P ∧ ready P = b.

(** A call keeps a property of the heap of protocols, however it ends. *)
Definition preserves (I : gmap loc Protocol → Prop) {A} (m : M A) : Prop :=
  ∀ s, I (protocols s) → I (protocols (state_of (m s))).

(** The device built by [initDevice]. *)
Definition new_device (devID comID typeID typeVersion : string)
    (options : list byte) : Device :=
  mkDevice devID comID typeID typeVersion options ∅ false.

(** The state after [AddDevice] has inserted a new device. *)
Definition added_state (p : loc) (P : Protocol)
    (devID comID typeID typeVersion : string) (options : list byte)
    (s : State) : State :=
  let d := fresh (dom (devices s)) in
  mkState (conn s) (ProtocolName s) (Log_Module s) (root_Protocol s)
    (root_properties s) (root_log_Module s) (Bridges s)
    (<[p := set_Devices (<[devID := d]> (Devices P)) P]> (protocols s))
    (<[d := new_device devID comID typeID typeVersion options]> (devices s))
    (levels s)
    (trace s ++ [SetDevice p devID d; ExportDevice devID]
       ++ go_events (Callbacks P) (CbAddDevice (Some d))
       ++ [EmitDeviceAdded devID]).

(** The state after [RemoveDevice] has removed the device at [d]. *)
Definition removed_state (p : loc) (P : Protocol) (devID : string) (d : loc)
    (D : Device) (s : State) : State :=
  mkState (conn s) (ProtocolName s) (Log_Module s) (root_Protocol s)
    (root_properties s) (root_log_Module s) (Bridges s)
    (<[p := set_Devices (delete devID (Devices P)) P]> (protocols s))
    (<[d := set_Items ∅ D]> (devices s))
    (levels s)
    (trace s ++ (DeleteItem d <$> keys (Items D))
       ++ go_events (Callbacks P) (CbRemoveDevice devID)
       ++ [DeleteDevice p devID; EmitDeviceRemoved devID]).

Section Calls.

Variable dbusPathPrefix : string.
Variable dbusProtocolInterface : string.
Variable logging_LogLevel : string → Level * option string.

(** The bus path of a bridge. *)
Definition bridge_path (s : State) (bridgeID : string) : string :=
  dbusPathPrefix +:+ ProtocolName s +:+ "_" +:+ bridgeID.

(** The state after [AddBridge] has created a bridge. *)
Definition bridge_added_state (c : Conn) (bridgeID : string) (s : State) : State :=
  let l := fresh (dom (protocols s)) in
  let path := bridge_path s bridgeID in
  mkState (conn s) (ProtocolName s) (Log_Module s) (root_Protocol s)
    (root_properties s) (root_log_Module s)
    (<[bridgeID := mkBridgeProto l]> (Bridges s))
    (<[l := mkProtocol None ∅ false false]> (protocols s))
    (devices s)
    (levels s)
    (trace s ++ export_events c (Log_Module s) (ObjProtocol l) path dbusProtocolInterface
       ++ [SetBridge bridgeID (mkBridgeProto l);
           ConnEmit path (dbusProtocolInterface +:+ "." +:+ signalBridgeAdded)]).

(** The state after [RemoveBridge] has removed a bridge without devices. *)
Definition bridge_removed_state (bridgeID : string) (s : State) : State :=
  mkState (conn s) (ProtocolName s) (Log_Module s) (root_Protocol s)
    (root_properties s) (root_log_Module s)
    (delete bridgeID (Bridges s))
    (protocols s) (devices s) (levels s)
    (trace s ++ [DeleteBridge bridgeID;
                 ConnEmit (bridge_path s bridgeID)
                   (dbusProtocolInterface +:+ "." +:+ signalBridgeRemoved)]).

(** The calls of protocol.go. *)
Inductive Op :=
| OpSetReady (p : loc)
| OpIsReady (p : loc)
| OpAddDevice (p : loc) (devID comID typeID typeVersion : string)
    (options : list byte)
| OpRemoveDevice (p : loc) (devID : string)
| OpAddBridge (bridgeID : string)
| OpRemoveBridge (bridgeID : string)
| OpSetLogLevel (c : Change)
| OpExportRootProtocolObject (protocol : string).

(** The state a call leaves, however it ends. *)
Definition exec (o : Op) (s : State) : State :=
  match o with
  | OpSetReady p => state_of (setReady p s)
  | OpIsReady p => state_of (IsReady p s)
  | OpAddDevice p devID comID typeID typeVersion options =>
      state_of (AddDevice p devID comID typeID typeVersion options s)
  | OpRemoveDevice p devID => state_of (RemoveDevice p devID s)
  | OpAddBridge bridgeID =>
      state_of (AddBridge dbusPathPrefix dbusProtocolInterface bridgeID s)
  | OpRemoveBridge bridgeID =>
      state_of (RemoveBridge dbusPathPrefix dbusProtocolInterface bridgeID s)
  | OpSetLogLevel c => state_of (setLogLevel logging_LogLevel c s)
  | OpExportRootProtocolObject protocol =>
      state_of (exportRootProtocolObject dbusPathPrefix dbusProtocolInterface protocol s)
  end.

(** A sequence of calls, each started in the state the one before left, as
    calls of other goroutines are when one is blocked. *)
Definition run (ops : list Op) (s : State) : State :=
  foldl (λ s o, exec o s) s ops.

End Calls.

(** ** Sample states *)

(** A connection that exports everything, and one that refuses every
    export. *)
Definition conn_ok : Conn := mkConn (λ _ _, None) (λ _, None).
Definition conn_refusing : Conn :=
  mkConn (λ _ _, Some "dbus: invalid path name") (λ _, Some "dbus: invalid path name").

(** A parser of levels that knows one name. *)
Definition parse_debug (s : string) : Level * option string :=
  if String.eqb s "DEBUG" then (DEBUG, None)
  else (ERROR, Some "logger: invalid log level").

Definition dev1 : Device :=
  mkDevice "d1" "com1" "lamp" "1.0" []
    {[ "i1" := mkItem "d1" "i1"; "i2" := mkItem "d1" "i2" ]} false.
Definition dev2 : Device := mkDevice "d2" "com2" "lamp" "1.0" [] ∅ false.
Definition dev3 : Device :=
  mkDevice "d3" "com3" "plug" "2.0" [] {[ "i1" := mkItem "d3" "i1" ]} false.

(** The root protocol with device [d1], with [d1] and [d2], and a bridge
    protocol without and with a device. *)
Definition root_one : Protocol :=
  mkProtocol (Some (Application 0)) {[ "d1" := 1%positive ]} false false.
Definition root_two : Protocol :=
  mkProtocol (Some (Application 0))
    {[ "d1" := 1%positive; "d2" := 2%positive ]} false false.
Definition bridge_empty : Protocol := mkProtocol None ∅ false false.
Definition bridge_one : Protocol :=
  mkProtocol None {[ "d3" := 3%positive ]} false false.

Definition sample_state (root bridge : Protocol) : State :=
  mkState (Some conn_ok) "zwave" "dbus" (Some 1%positive) None "dbus"
    {[ "b1" := mkBridgeProto 2 ]}
    {[ 1%positive := root; 2%positive := bridge ]}
    {[ 1%positive := dev1; 2%positive := dev2; 3%positive := dev3 ]}
    ∅ [].

(** Root with [d1] and an empty bridge [b1]; root with [d1] and [d2] and an
    empty bridge [b1]; root with [d1] and a bridge [b1] with device [d3]. *)
Definition st_one : State := sample_state root_one bridge_empty.
Definition st_two : State := sample_state root_two bridge_empty.
Definition st_full : State := sample_state root_one bridge_one.

(** ** Notions used for the further properties *)

(** No mutex is held: no call is inside a critical section. *)
Definition quiescent (s : State) : Prop :=
  map_Forall (λ _ P, mutex P = false) (protocols s)
  ∧ map_Forall (λ _ D, device_mutex D = false) (devices s).

(** The pointers of the registry are live: a non-nil root protocol is in
    the heap; the protocol of every bridge is in the heap and is not the
    root's; every entry of a device map points to a device in the heap whose
    id is the key. *)
Definition well_formed (s : State) : Prop :=
  (∀ rp, root_Protocol s = Some rp → is_Some (protocols s !! rp))
  ∧ map_Forall (λ _ b, is_Some (protocols s !! bridge_Protocol b)
                       ∧ root_Protocol s ≠ Some (bridge_Protocol b)) (Bridges s)
  ∧ map_Forall (λ _ P,
      map_Forall (λ id d, DevID <$> devices s !! d = Some id) (Devices P))
      (protocols s).

Definition healthy (s : State) : Prop := quiescent s ∧ well_formed s.

(** A call has returned. *)
Definition returns {A} (o : outcome A) : Prop :=
  match o with Returned _ _ => True | _ => False end.

(** What a call needs of the state it starts in, besides health: its
    receiver is in the heap; [AddBridge] and [RemoveBridge] have a root
    protocol and a connection; the bridge that [RemoveBridge] removes owns
    no device; the value of a property change is a string. *)
Definition op_pre (s : State) (o : Op) : Prop :=
  match o with
  | OpSetReady p | OpIsReady p | OpAddDevice p _ _ _ _ _ | OpRemoveDevice p _ =>
      is_Some (protocols s !! p)
  | OpAddBridge _ => is_Some (root_Protocol s) ∧ is_Some (conn s)
  | OpRemoveBridge bridgeID =>
      is_Some (root_Protocol s) ∧ is_Some (conn s)
      ∧ ∀ b B, Bridges s !! bridgeID = Some b →
               protocols s !! bridge_Protocol b = Some B → Devices B = ∅
  | OpSetLogLevel c => ∃ v, Value c = VString v
  | OpExportRootProtocolObject _ => True
  end.

Section MoreCalls.

Variable dbusPathPrefix : string.
Variable dbusProtocolInterface : string.
Variable logging_LogLevel : string → Level * option string.

(** The call [o] returns from [s]. *)
Definition completes (o : Op) (s : State) : Prop :=
  match o with
  | OpSetReady p => returns (setReady p s)
  | OpIsReady p => returns (IsReady p s)
  | OpAddDevice p devID comID typeID typeVersion options =>
      returns (AddDevice p devID comID typeID typeVersion options s)
  | OpRemoveDevice p devID => returns (RemoveDevice p devID s)
  | OpAddBridge bridgeID =>
      returns (AddBridge dbusPathPrefix dbusProtocolInterface bridgeID s)
  | OpRemoveBridge bridgeID =>
      returns (RemoveBridge dbusPathPrefix dbusProtocolInterface bridgeID s)
  | OpSetLogLevel c => returns (setLogLevel logging_LogLevel c s)
  | OpExportRootProtocolObject protocol =>
      returns (exportRootProtocolObject dbusPathPrefix dbusProtocolInterface protocol s)
  end.

(** Every call of the sequence has what it needs when it starts. *)
Fixpoint callable (s : State) (ops : list Op) : Prop :=
  match ops with
  | [] => True
  | o :: ops' =>
      op_pre s o
      ∧ callable (exec dbusPathPrefix dbusProtocolInterface logging_LogLevel o s) ops'
  end.

(** Every call of the sequence returns. *)
Fixpoint all_complete (s : State) (ops : list Op) : Prop :=
  match ops with
  | [] => True
  | o :: ops' =>
      completes o s
      ∧ all_complete (exec dbusPathPrefix dbusProtocolInterface logging_LogLevel o s) ops'
  end.

(** The property table of the root object, as [initProtocolProp] builds it
    in state [s]. *)
Definition root_props (s : State) : PropsSpec :=
  [(dbusProtocolInterface,
    [(propertyLogLevel,
      mkProp (Level_String
                (match levels s !! root_log_Module s with
                 | Some l => l
                 | None => default DEBUG (levels s !! "")
                 end)) true EmitTrue)])].

(** The state after [exportRootProtocolObject] on the connection [c]. *)
Definition root_exported_state (c : Conn) (protocol : string) (s : State) : State :=
  let l := fresh (dom (protocols s)) in
  let path := dbusPathPrefix +:+ protocol in
  mkState (conn s) (ProtocolName s) (Log_Module s) (root_Protocol s)
    (match prop_export_err c path with
     | None => Some (path, root_props s)
     | Some _ => root_properties s
     end)
    (root_log_Module s) (Bridges s)
    (<[l := mkProtocol None ∅ false false]> (protocols s))
    (devices s) (levels s)
    (trace s ++ PropExport path (root_props s)
       :: match prop_export_err c path with
          | Some e => [LogCall (Log_Module s) ERROR
                         ["Fail to export the properties of the protocol"; e]]
          | None => []
          end
       ++ export_events c (Log_Module s) (ObjProtocol l) path dbusProtocolInterface
       ++ match export_err c path dbusProtocolInterface with
          | None => export_events c (Log_Module s) ObjRootProto path dbusProtocolInterface
          | Some _ => []
          end).

End MoreCalls.

(** Two device objects have the same identity and attributes: all fields
    but the item map and the mutex. *)
Definition same_identity (D D' : Device) : Prop :=
  DevID D' = DevID D ∧ ComID D' = ComID D ∧ TypeID D' = TypeID D
  ∧ TypeVersion D' = TypeVersion D ∧ Options D' = Options D.

(** A call keeps a property of the heap of devices, however it ends. *)
Definition keeps_devices (I : gmap loc Device → Prop) {A} (m : M A) : Prop :=
  ∀ s, I (devices s) → I (devices (state_of (m s))).

(** More sample states: the root's mutex held; no root protocol linked yet
    and an empty heap; a connection that refuses every export. *)
Definition st_locked : State :=
  sample_state (mkProtocol (Some (Application 0)) {[ "d1" := 1%positive ]} false true)
    bridge_empty.
Definition st_unlinked : State :=
  mkState (Some conn_ok) "zwave" "dbus" None None "dbus" ∅ ∅ ∅ ∅ [].
Definition st_refused : State :=
  mkState (Some conn_refusing) "zwave" "dbus" None None "dbus" ∅ ∅ ∅ ∅ [].

(** * Proofs *)

(** ** Running a call step by step *)

Lemma bind_Returned {A B} (m : M A) (k : A → M B) s a s' :
  m s = Returned a s' → (m ≫= k) s = k a s'.
Proof. intros H. unfold mbind, M_bind. by rewrite H. Qed.

Lemma bind_Blocked {A B} (m : M A) (k : A → M B) s s' :
  m s = Blocked s' → (m ≫= k) s = Blocked s'.
Proof. intros H. unfold mbind, M_bind. by rewrite H. Qed.

Lemma bind_Panicked {A B} (m : M A) (k : A → M B) s s' :
  m s = Panicked s' → (m ≫= k) s = Panicked s'.
Proof. intros H. unfold mbind, M_bind. by rewrite H. Qed.

(** [step H] runs the first action of the goal's call with the equation
    [H] of that action. *)
Tactic Notation "step" open_constr(H) :=
  rewrite (bind_Returned _ _ _ _ _ H); cbv beta.

Lemma get_protocol_eq p P s :
  protocols s !! p = Some P → get_protocol p s = Returned P s.
Proof. intros H. unfold get_protocol, gets, mbind, M_bind. by rewrite H. Qed.

Lemma get_device_eq d D s :
  devices s !! d = Some D → get_device d s = Returned D s.
Proof. intros H. unfold get_device, gets, mbind, M_bind. by rewrite H. Qed.

Lemma update_protocol_eq p f P s :
  protocols s !! p = Some P →
  update_protocol p f s = Returned tt (put_protocol p (f P) s).
Proof. intros H. unfold update_protocol. by step (get_protocol_eq _ _ _ H). Qed.

Lemma update_device_eq d f D s :
  devices s !! d = Some D →
  update_device d f s = Returned tt (put_device d (f D) s).
Proof. intros H. unfold update_device. by step (get_device_eq _ _ _ H). Qed.

Lemma Lock_free p P s :
  protocols s !! p = Some P → mutex P = false →
  Lock p s = Returned tt (put_protocol p (set_mutex true P) s).
Proof.
  intros H Hm. unfold Lock. step (get_protocol_eq _ _ _ H). rewrite Hm.
  by apply update_protocol_eq.
Qed.

Lemma Lock_held p P s :
  protocols s !! p = Some P → mutex P = true → Lock p s = Blocked s.
Proof.
  intros H Hm. unfold Lock. step (get_protocol_eq _ _ _ H). by rewrite Hm.
Qed.

Lemma Unlock_held p P s :
  protocols s !! p = Some P → mutex P = true →
  Unlock p s = Returned tt (put_protocol p (set_mutex false P) s).
Proof.
  intros H Hm. unfold Unlock. step (get_protocol_eq _ _ _ H). rewrite Hm.
  by apply update_protocol_eq.
Qed.

Lemma device_Lock_free d D s :
  devices s !! d = Some D → device_mutex D = false →
  device_Lock d s = Returned tt (put_device d (set_device_mutex true D) s).
Proof.
  intros H Hm. unfold device_Lock. step (get_device_eq _ _ _ H). rewrite Hm.
  by apply update_device_eq.
Qed.

Lemma device_Unlock_held d D s :
  devices s !! d = Some D → device_mutex D = true →
  device_Unlock d s = Returned tt (put_device d (set_device_mutex false D) s).
Proof.
  intros H Hm. unfold device_Unlock. step (get_device_eq _ _ _ H). rewrite Hm.
  by apply update_device_eq.
Qed.

Lemma record_eq e s : record e s = Returned tt (add_trace [e] s).
Proof. reflexivity. Qed.

Lemma bind_gets {A B} (f : State → A) (k : A → M B) s :
  (gets f ≫= k) s = k (f s) s.
Proof. reflexivity. Qed.

Lemma bind_mret {A B} (a : A) (k : A → M B) s : (mret a ≫= k) s = k a s.
Proof. reflexivity. Qed.

Lemma bind_modify {B} (f : State → State) (k : unit → M B) s :
  (modify f ≫= k) s = k tt (f s).
Proof. reflexivity. Qed.

Lemma bind_record {B} (e : Event) (k : unit → M B) s :
  (record e ≫= k) s = k tt (add_trace [e] s).
Proof. reflexivity. Qed.

Lemma lookup_put_protocol p P s : protocols (put_protocol p P s) !! p = Some P.
Proof. apply lookup_insert_eq. Qed.

Lemma lookup_put_protocol_ne p q P s :
  p ≠ q → protocols (put_protocol p P s) !! q = protocols s !! q.
Proof. intros H. by apply lookup_insert_ne. Qed.

Lemma lookup_put_device d D s : devices (put_device d D s) !! d = Some D.
Proof. apply lookup_insert_eq. Qed.

Lemma put_protocol_put_protocol p P P' s :
  put_protocol p P' (put_protocol p P s) = put_protocol p P' s.
Proof. unfold put_protocol. cbn. by rewrite insert_insert_eq. Qed.

Lemma put_protocol_id p P s : protocols s !! p = Some P → put_protocol p P s = s.
Proof. intros H. unfold put_protocol. rewrite insert_id by done. by destruct s. Qed.

Lemma set_mutex_set_mutex b b' P : set_mutex b (set_mutex b' P) = set_mutex b P.
Proof. reflexivity. Qed.

Lemma set_mutex_id P b : mutex P = b → set_mutex b P = P.
Proof. intros <-. by destruct P. Qed.

(** A call that takes a free lock, does nothing and releases it leaves the
    state as it was. *)
Lemma Lock_Unlock_id p P s :
  protocols s !! p = Some P → mutex P = false →
  put_protocol p (set_mutex false (set_mutex true P))
    (put_protocol p (set_mutex true P) s) = s.
Proof.
  intros H Hm. rewrite put_protocol_put_protocol, set_mutex_set_mutex.
  rewrite set_mutex_id by done. by apply put_protocol_id.
Qed.

(** ** [RemoveDevice] *)

(** Deleting every key of a map, in any order, empties it. *)
Lemma lookup_foldl_delete {V} (ks : list string) (m : gmap string V) k :
  foldl (λ m k, delete k m) m ks !! k = if decide (k ∈ ks) then None else m !! k.
Proof.
  revert m. induction ks as [|k' ks IH]; intros m; cbn.
  - case_decide as H; [by apply not_elem_of_nil in H | done].
  - rewrite IH. destruct (decide (k ∈ ks)) as [Hin|Hnin].
    + rewrite decide_True; [done | by right].
    + destruct (decide (k = k')) as [->|Hne].
      * rewrite decide_True; [apply lookup_delete_eq | by left].
      * rewrite decide_False; [by apply lookup_delete_ne |].
        intros [?|?]%elem_of_cons; done.
Qed.

Lemma elem_of_keys {V} (m : gmap string V) k : k ∈ keys m ↔ is_Some (m !! k).
Proof.
  unfold keys. rewrite list_elem_of_fmap. split.
  - intros [[k' v] [-> Hin]]. apply elem_of_map_to_list in Hin. by exists v.
  - intros [v Hv]. exists (k, v). split; [done | by apply elem_of_map_to_list].
Qed.

Lemma delete_keys_empty {V} (m : gmap string V) :
  foldl (λ m k, delete k m) m (keys m) = ∅.
Proof.
  apply map_eq. intros k. rewrite lookup_foldl_delete, lookup_empty.
  case_decide as Hk; [done |].
  destruct (m !! k) eqn:E; [| done].
  exfalso. apply Hk, elem_of_keys. by rewrite E.
Qed.

Lemma keys_empty_iff {V} (m : gmap string V) : keys m = [] ↔ m = ∅.
Proof.
  unfold keys. split.
  - intros H. apply fmap_nil_inv in H. by apply map_to_list_empty_iff.
  - intros ->. by rewrite map_to_list_empty.
Qed.

Lemma put_device_put_device d D D' s :
  put_device d D' (put_device d D s) = put_device d D' s.
Proof. unfold put_device. cbn. by rewrite insert_insert_eq. Qed.

Lemma put_device_id d D s : devices s !! d = Some D → put_device d D s = s.
Proof. intros H. unfold put_device. rewrite insert_id by done. by destruct s. Qed.

Lemma add_trace_nil s : add_trace [] s = s.
Proof. unfold add_trace. rewrite app_nil_r. by destruct s. Qed.

Lemma add_trace_add_trace t t' s :
  add_trace t' (add_trace t s) = add_trace (t ++ t') s.
Proof. unfold add_trace. cbn. by rewrite app_assoc. Qed.

Lemma put_device_add_trace d D t s :
  put_device d D (add_trace t s) = add_trace t (put_device d D s).
Proof. reflexivity. Qed.

Lemma put_protocol_add_trace p P t s :
  put_protocol p P (add_trace t s) = add_trace t (put_protocol p P s).
Proof. reflexivity. Qed.

Lemma put_protocol_put_device p P d D s :
  put_protocol p P (put_device d D s) = put_device d D (put_protocol p P s).
Proof. reflexivity. Qed.

Lemma set_Items_id D : set_Items (Items D) D = D.
Proof. by destruct D. Qed.

(** The loop of [RemoveDevice] over the items of the device at [d]. *)
Lemma clear_items_loop d ks D s :
  devices s !! d = Some D →
  for_range ks (λ item,
      update_device d (λ D, set_Items (delete item (Items D)) D);;
      record (DeleteItem d item)) s
  = Returned tt
      (add_trace (DeleteItem d <$> ks)
         (put_device d (set_Items (foldl (λ m k, delete k m) (Items D) ks) D) s)).
Proof.
  revert D s. induction ks as [|k ks IH]; intros D s HD; cbn [for_range foldl fmap list_fmap].
  - rewrite set_Items_id, put_device_id by done. by rewrite add_trace_nil.
  - rewrite (bind_Returned _ _ _ tt
      (add_trace [DeleteItem d k] (put_device d (set_Items (delete k (Items D)) D) s))).
    + rewrite (IH (set_Items (delete k (Items D)) D)) by apply lookup_put_device.
      rewrite put_device_add_trace, put_device_put_device, add_trace_add_trace.
      reflexivity.
    + step (update_device_eq d (λ D, set_Items (delete k (Items D)) D) D s HD).
      apply record_eq.
Qed.

Lemma go_callback_eq cb c s :
  (if negb (isNil cb) then h ← deref cb; record (Go h c) else mret tt) s
  = Returned tt (add_trace (go_events cb c) s).
Proof. destruct cb; cbn; [done |]. by rewrite add_trace_nil. Qed.

Lemma RemoveDevice_present p P devID d D s :
  protocols s !! p = Some P → mutex P = false →
  Devices P !! devID = Some d →
  devices s !! d = Some D → device_mutex D = false →
  RemoveDevice p devID s = Returned None (removed_state p P devID d D s).
Proof.
  intros HP Hm Hd HD HDm. unfold RemoveDevice.
  step (Lock_free _ _ _ HP Hm).
  step (get_protocol_eq _ _ _ (lookup_put_protocol p (set_mutex true P) s)).
  cbn [Devices set_mutex]. rewrite Hd.
  set (s1 := put_protocol p (set_mutex true P) s).
  assert (HD1 : devices s1 !! d = Some D) by done.
  step (device_Lock_free _ _ _ HD1 HDm).
  step (get_device_eq _ _ _ (lookup_put_device d (set_device_mutex true D) s1)).
  cbn [Items set_device_mutex].
  step (clear_items_loop d (keys (Items D)) _ _
          (lookup_put_device d (set_device_mutex true D) s1)).
  cbn [Items set_device_mutex Callbacks]. rewrite delete_keys_empty.
  step (go_callback_eq (Callbacks P) (CbRemoveDevice devID) _).
  rewrite put_device_put_device, add_trace_add_trace.
  match goal with |- context [add_trace ?t (put_device d ?D' s1)] =>
    set (tr := t); set (D1 := D') end.
  assert (HD2 : devices (add_trace tr (put_device d D1 s1)) !! d = Some D1)
    by apply lookup_insert_eq.
  step (device_Unlock_held _ _ _ HD2 eq_refl).
  assert (HP2 : ∀ D', protocols (put_device d D' (add_trace tr (put_device d D1 s1))) !! p
                = Some (set_mutex true P)) by (intros; apply lookup_insert_eq).
  step (update_protocol_eq p (λ P, set_Devices (delete devID (Devices P)) P) _ _ (HP2 _)).
  step (record_eq (DeleteDevice p devID) _).
  unfold emitDeviceRemoved. step (record_eq (EmitDeviceRemoved devID) _).
  erewrite bind_Returned
    by (eapply Unlock_held; [apply lookup_insert_eq | reflexivity]).
  unfold mret, M_ret. f_equal.
  subst s1 tr D1. unfold removed_state, put_protocol, put_device, add_trace. cbn.
  unfold set_mutex, set_Devices, set_device_mutex, set_Items. cbn.
  rewrite !insert_insert_eq, <- !app_assoc, Hm, HDm. reflexivity.
Qed.

(** ** [AddDevice] *)

Lemma AddDevice_present p P devID comID typeID typeVersion options s :
  protocols s !! p = Some P → mutex P = false → is_Some (Devices P !! devID) →
  AddDevice p devID comID typeID typeVersion options s = Returned (true, None) s.
Proof.
  intros HP Hm Hd. unfold AddDevice.
  step (Lock_free _ _ _ HP Hm).
  step (get_protocol_eq _ _ _ (lookup_put_protocol p (set_mutex true P) s)).
  cbn [Devices set_mutex]. rewrite (bool_decide_eq_true_2 _ Hd). cbn [negb].
  rewrite bind_mret.
  step (Unlock_held _ _ _ (lookup_put_protocol p (set_mutex true P) s) eq_refl).
  by rewrite Lock_Unlock_id.
Qed.

Lemma go_add_callback_eq cb p P devID d s :
  protocols s !! p = Some P → Devices P !! devID = Some d →
  (if negb (isNil cb) then
     h ← deref cb;
     P ← get_protocol p;
     record (Go h (CbAddDevice (Devices P !! devID)))
   else mret tt) s
  = Returned tt (add_trace (go_events cb (CbAddDevice (Some d))) s).
Proof.
  intros HP Hd. destruct cb as [h|]; cbn [negb isNil deref go_events].
  - rewrite bind_mret.
    step (get_protocol_eq _ _ _ HP). rewrite Hd. apply record_eq.
  - by rewrite add_trace_nil.
Qed.

Lemma AddDevice_absent p P devID comID typeID typeVersion options s :
  protocols s !! p = Some P → mutex P = false → Devices P !! devID = None →
  AddDevice p devID comID typeID typeVersion options s
  = Returned (false, None) (added_state p P devID comID typeID typeVersion options s).
Proof.
  intros HP Hm Hd. unfold AddDevice.
  step (Lock_free _ _ _ HP Hm).
  step (get_protocol_eq _ _ _ (lookup_put_protocol p (set_mutex true P) s)).
  cbn [Devices set_mutex].
  rewrite bool_decide_eq_false_2 by (rewrite Hd; apply is_Some_None). cbn [negb].
  set (d := fresh (dom (devices s))).
  set (D := new_device devID comID typeID typeVersion options).
  set (P1 := set_Devices (<[devID := d]> (Devices P)) (set_mutex true P)).
  set (cb := go_events (Callbacks P) (CbAddDevice (Some d))).
  rewrite (bind_Returned _ _ _ tt
    (add_trace ([SetDevice p devID d; ExportDevice devID] ++ cb ++ [EmitDeviceAdded devID])
       (put_device d D (put_protocol p P1 s)))).
  - erewrite bind_Returned
      by (eapply Unlock_held; [apply lookup_insert_eq | reflexivity]).
    unfold mret, M_ret. f_equal.
    unfold added_state, put_protocol, put_device, add_trace. cbn.
    subst P1. unfold set_mutex, set_Devices. cbn.
    rewrite !insert_insert_eq, Hm. reflexivity.
  - assert (Hinit : initDevice devID comID typeID typeVersion options p
                      (put_protocol p (set_mutex true P) s)
                    = Returned d (put_device d D (put_protocol p (set_mutex true P) s)))
      by reflexivity.
    step Hinit.
    erewrite bind_Returned
      by (eapply (update_protocol_eq p (λ P, set_Devices (<[devID := d]> (Devices P)) P));
          apply lookup_insert_eq).
    step (record_eq (SetDevice p devID d) _).
    erewrite bind_Returned by (eapply get_protocol_eq; apply lookup_insert_eq).
    assert (HdP : Devices (set_Devices (<[devID:=d]> (Devices (set_mutex true P)))
                    (set_mutex true P)) !! devID = Some d) by apply lookup_insert_eq.
    rewrite HdP. cbn [Callbacks set_Devices set_mutex].
    erewrite bind_Returned; cycle 1.
    { unfold exportDeviceOnDbus, deref.
      rewrite bind_mret.
      erewrite bind_Returned by (eapply get_device_eq; apply lookup_insert_eq).
      apply record_eq. }
    erewrite bind_Returned; cycle 1.
    { eapply go_add_callback_eq; [apply lookup_insert_eq | exact HdP]. }
    unfold emitDeviceAdded.
    erewrite bind_Returned by (eapply get_device_eq; apply lookup_insert_eq).
    rewrite record_eq. f_equal.
    fold cb. rewrite !add_trace_add_trace.
    unfold put_protocol, put_device, add_trace. cbn.
    rewrite !insert_insert_eq. reflexivity.
Qed.

(** ** Bridges *)

Section BusFacts.

Variable dbusPathPrefix : string.
Variable dbusProtocolInterface : string.
Variable logging_LogLevel : string → Level * option string.

Lemma conn_Emit_eq c path name s :
  conn s = Some c →
  conn_Emit path name s = Returned tt (add_trace [ConnEmit path name] s).
Proof. intros H. unfold conn_Emit. rewrite bind_gets. by rewrite H. Qed.

Lemma conn_Export_eq c obj path iface s :
  conn s = Some c →
  conn_Export obj path iface s
  = Returned (export_err c path iface) (add_trace [ConnExport obj path iface] s).
Proof. intros H. unfold conn_Export. rewrite bind_gets. by rewrite H. Qed.

Lemma emitBridgeAdded_eq c bridgeID s :
  conn s = Some c →
  emitBridgeAdded dbusPathPrefix dbusProtocolInterface bridgeID s
  = Returned tt (add_trace [ConnEmit (bridge_path dbusPathPrefix s bridgeID)
                   (dbusProtocolInterface +:+ "." +:+ signalBridgeAdded)] s).
Proof. intros H. unfold emitBridgeAdded. rewrite bind_gets. by apply conn_Emit_eq with c. Qed.

Lemma emitBridgeRemoved_eq c bridgeID s :
  conn s = Some c →
  emitBridgeRemoved dbusPathPrefix dbusProtocolInterface bridgeID s
  = Returned tt (add_trace [ConnEmit (bridge_path dbusPathPrefix s bridgeID)
                   (dbusProtocolInterface +:+ "." +:+ signalBridgeRemoved)] s).
Proof. intros H. unfold emitBridgeRemoved. rewrite bind_gets. by apply conn_Emit_eq with c. Qed.

Lemma AddBridge_present bridgeID rp R s :
  root_Protocol s = Some rp → protocols s !! rp = Some R → mutex R = false →
  is_Some (Bridges s !! bridgeID) →
  AddBridge dbusPathPrefix dbusProtocolInterface bridgeID s
  = Returned (true, None) s.
Proof.
  intros Hr HR Hm Hb. unfold AddBridge.
  rewrite bind_gets, Hr. cbn [deref]. rewrite bind_mret.
  step (Lock_free _ _ _ HR Hm).
  rewrite bind_gets. cbn [Bridges put_protocol with_protocols].
  rewrite (bool_decide_eq_true_2 _ Hb). cbn [negb].
  rewrite bind_mret.
  step (Unlock_held _ _ _ (lookup_put_protocol rp (set_mutex true R) s) eq_refl).
  by rewrite Lock_Unlock_id.
Qed.

Lemma dom_put_protocol p P P' s :
  protocols s !! p = Some P → dom (protocols (put_protocol p P' s)) = dom (protocols s).
Proof.
  intros H. cbn. rewrite dom_insert_L.
  apply subseteq_union_1_L, singleton_subseteq_l, elem_of_dom. by rewrite H.
Qed.

Lemma fresh_protocol_ne p P s :
  protocols s !! p = Some P → fresh (dom (protocols s)) ≠ p.
Proof.
  intros H E. apply (is_fresh (dom (protocols s))). rewrite E.
  apply elem_of_dom. by rewrite H.
Qed.

Lemma AddBridge_absent bridgeID rp R c s :
  root_Protocol s = Some rp → protocols s !! rp = Some R → mutex R = false →
  conn s = Some c → Bridges s !! bridgeID = None →
  AddBridge dbusPathPrefix dbusProtocolInterface bridgeID s
  = Returned (false, None) (bridge_added_state dbusPathPrefix dbusProtocolInterface c bridgeID s).
Proof.
  intros Hr HR Hm Hc Hb. unfold AddBridge.
  rewrite bind_gets, Hr. cbn [deref]. rewrite bind_mret.
  step (Lock_free _ _ _ HR Hm).
  rewrite bind_gets. cbn [Bridges put_protocol with_protocols].
  rewrite bool_decide_eq_false_2 by (rewrite Hb; apply is_Some_None). cbn [negb].
  fold (put_protocol rp (set_mutex true R) s).
  set (s1 := put_protocol rp (set_mutex true R) s).
  set (l := fresh (dom (protocols s))).
  set (path := bridge_path dbusPathPrefix s bridgeID).
  set (new := mkProtocol None ∅ false false).
  assert (Hl : l ≠ rp) by (eapply fresh_protocol_ne; eauto).
  rewrite (bind_Returned _ _ _ tt
    (add_trace (export_events c (Log_Module s) (ObjProtocol l) path dbusProtocolInterface
                ++ [SetBridge bridgeID (mkBridgeProto l);
                    ConnEmit path (dbusProtocolInterface +:+ "." +:+ signalBridgeAdded)])
       (with_Bridges (<[bridgeID := mkBridgeProto l]> (Bridges s))
          (put_protocol l new s1)))).
  - erewrite bind_Returned; cycle 1.
    { eapply Unlock_held;
        [cbn; rewrite lookup_insert_ne by done; apply lookup_insert_eq | reflexivity]. }
    unfold mret, M_ret. f_equal.
    unfold bridge_added_state, put_protocol, add_trace. cbn.
    fold l path new. f_equal.
    rewrite (insert_insert_ne _ rp l) by done.
    rewrite insert_insert_eq, set_mutex_set_mutex, set_mutex_id by done.
    rewrite (insert_id _ rp R) by done. reflexivity.
  - assert (Hnew : new_Protocol s1 = Returned l (put_protocol l new s1)).
    { unfold new_Protocol, gets, modify, mbind, M_bind, mret, M_ret.
      subst s1. rewrite (dom_put_protocol _ _ _ _ HR). reflexivity. }
    step Hnew.
    rewrite bind_gets.
    change (ProtocolName (put_protocol l new s1)) with (ProtocolName s).
    fold (bridge_path dbusPathPrefix s bridgeID). fold path.
    step (conn_Export_eq c (ObjProtocol l) path dbusProtocolInterface
            (put_protocol l new s1) Hc).
    erewrite bind_Returned; cycle 1.
    { instantiate (1 := add_trace (export_events c (Log_Module s) (ObjProtocol l) path
                                     dbusProtocolInterface) (put_protocol l new s1)).
      instantiate (1 := tt).
      unfold export_events.
      destruct (export_err c path dbusProtocolInterface) as [e|]; [| reflexivity].
      unfold log. by rewrite bind_gets, record_eq, add_trace_add_trace. }
    rewrite bind_modify, bind_record.
    erewrite emitBridgeAdded_eq by exact Hc.
    f_equal. unfold add_trace, with_Bridges, with_trace, bridge_path. cbn.
    rewrite <- !app_assoc. reflexivity.
Qed.

Lemma RemoveBridge_absent bridgeID rp R s :
  root_Protocol s = Some rp → protocols s !! rp = Some R → mutex R = false →
  Bridges s !! bridgeID = None →
  RemoveBridge dbusPathPrefix dbusProtocolInterface bridgeID s = Returned None s.
Proof.
  intros Hr HR Hm Hb. unfold RemoveBridge.
  rewrite bind_gets, Hr. cbn [deref]. rewrite bind_mret.
  step (Lock_free _ _ _ HR Hm).
  rewrite bind_gets. cbn [Bridges put_protocol with_protocols]. rewrite Hb.
  step (Unlock_held _ _ _ (lookup_put_protocol rp (set_mutex true R) s) eq_refl).
  by rewrite Lock_Unlock_id.
Qed.

Lemma RemoveBridge_empty bridgeID rp R c b B s :
  root_Protocol s = Some rp → protocols s !! rp = Some R → mutex R = false →
  conn s = Some c →
  Bridges s !! bridgeID = Some b →
  protocols s !! bridge_Protocol b = Some B → bridge_Protocol b ≠ rp →
  mutex B = false → Devices B = ∅ →
  RemoveBridge dbusPathPrefix dbusProtocolInterface bridgeID s
  = Returned None (bridge_removed_state dbusPathPrefix dbusProtocolInterface bridgeID s).
Proof.
  intros Hr HR Hm Hc Hb HB Hne HBm HBd. unfold RemoveBridge.
  rewrite bind_gets, Hr. cbn [deref]. rewrite bind_mret.
  step (Lock_free _ _ _ HR Hm).
  rewrite bind_gets. cbn [Bridges put_protocol with_protocols]. rewrite Hb.
  fold (put_protocol rp (set_mutex true R) s).
  set (s1 := put_protocol rp (set_mutex true R) s).
  set (lb := bridge_Protocol b) in *.
  assert (HB1 : protocols s1 !! lb = Some B)
    by (cbn; by rewrite lookup_insert_ne).
  step (Lock_free _ _ _ HB1 HBm).
  step (get_protocol_eq _ _ _ (lookup_put_protocol lb (set_mutex true B) s1)).
  cbn [Devices set_mutex]. rewrite HBd.
  replace (keys (∅ : gmap string loc)) with (@nil string)
    by (symmetry; by apply keys_empty_iff).
  cbn [for_range]. rewrite bind_mret.
  step (Unlock_held _ _ _ (lookup_put_protocol lb (set_mutex true B) s1) eq_refl).
  rewrite (Lock_Unlock_id lb B s1 HB1 HBm).
  rewrite bind_modify, bind_record.
  erewrite (bind_Returned (emitBridgeRemoved _ _ _))
    by (apply emitBridgeRemoved_eq with c; exact Hc).
  erewrite bind_Returned
    by (eapply Unlock_held; [apply lookup_insert_eq | reflexivity]).
  unfold mret, M_ret. f_equal.
  subst s1. unfold bridge_removed_state, bridge_path, put_protocol, add_trace. cbn.
  rewrite insert_insert_eq, set_mutex_set_mutex, set_mutex_id by done.
  rewrite insert_id by done. rewrite <- !app_assoc. reflexivity.
Qed.

(** ** Readiness *)

Lemma setReady_free p P s :
  protocols s !! p = Some P → mutex P = false →
  setReady p s = Returned tt (put_protocol p (set_ready true P) s).
Proof.
  intros HP Hm. unfold setReady.
  step (Lock_free _ _ _ HP Hm).
  step (update_protocol_eq p (set_ready true) _ _
          (lookup_put_protocol p (set_mutex true P) s)).
  erewrite Unlock_held by (first [apply lookup_put_protocol | reflexivity]).
  f_equal. rewrite !put_protocol_put_protocol. f_equal.
  unfold set_mutex, set_ready. cbn. by rewrite Hm.
Qed.

Lemma IsReady_free p P s :
  protocols s !! p = Some P → mutex P = false →
  IsReady p s = Returned (ready P, None) s.
Proof.
  intros HP Hm. unfold IsReady.
  step (Lock_free _ _ _ HP Hm).
  step (get_protocol_eq _ _ _ (lookup_put_protocol p (set_mutex true P) s)).
  cbv zeta.
  step (Unlock_held _ _ _ (lookup_put_protocol p (set_mutex true P) s) eq_refl).
  by rewrite Lock_Unlock_id.
Qed.

End BusFacts.

(** ** The claims about devices *)

Lemma filter_signal_DeleteItem d ks :
  List.filter is_signal (DeleteItem d <$> ks) = [].
Proof. induction ks as [|k ks IH]; [done | exact IH]. Qed.

Lemma filter_signal_go cb c : List.filter is_signal (go_events cb c) = [].
Proof. by destruct cb. Qed.

(** C3: when the id is already in the device map of the protocol,
    [AddDevice] returns [true] and changes nothing; when it is not, a first
    [AddDevice] returns [false] and the map has one more device, and a
    second [AddDevice] with the same id returns [true] and changes nothing
    more. *)
Theorem AddDevice_idempotent p P devID comID typeID typeVersion options
    comID' typeID' typeVersion' options' s :
  protocols s !! p = Some P → mutex P = false →
  (is_Some (Devices P !! devID) →
     AddDevice p devID comID typeID typeVersion options s = Returned (true, None) s)
  ∧ (Devices P !! devID = None →
     ∃ s1 P1,
       AddDevice p devID comID typeID typeVersion options s = Returned (false, None) s1
       ∧ protocols s1 !! p = Some P1
       ∧ size (Devices P1) = S (size (Devices P))
       ∧ AddDevice p devID comID' typeID' typeVersion' options' s1
         = Returned (true, None) s1).
Proof.
  intros HP Hm. split.
  - intros Hd. by apply AddDevice_present with P.
  - intros Hd.
    set (d := fresh (dom (devices s))).
    exists (added_state p P devID comID typeID typeVersion options s),
      (set_Devices (<[devID := d]> (Devices P)) P).
    assert (H1 : protocols (added_state p P devID comID typeID typeVersion options s) !! p
                 = Some (set_Devices (<[devID := d]> (Devices P)) P))
      by apply lookup_insert_eq.
    split; [by apply AddDevice_absent |].
    split; [exact H1 |].
    split; [by apply map_size_insert_None |].
    eapply AddDevice_present; [exact H1 | exact Hm |].
    cbn. rewrite lookup_insert_eq. by eexists.
Qed.

(** C4: [RemoveDevice] of an id that is not in the device map returns
    without an error and leaves the whole state as it was: device map,
    readiness flag, and trace (no signal, no other event). *)
Theorem RemoveDevice_absent_noop p P devID s :
  protocols s !! p = Some P → mutex P = false → Devices P !! devID = None →
  RemoveDevice p devID s = Returned None s.
Proof.
  intros HP Hm Hd. unfold RemoveDevice.
  step (Lock_free _ _ _ HP Hm).
  step (get_protocol_eq _ _ _ (lookup_put_protocol p (set_mutex true P) s)).
  cbn [Devices set_mutex]. rewrite Hd.
  step (Unlock_held _ _ _ (lookup_put_protocol p (set_mutex true P) s) eq_refl).
  by rewrite Lock_Unlock_id.
Qed.

(** C5: [RemoveDevice] of a device that is in the map returns after it has
    emptied the item map of the device and deleted the device from the
    protocol's map; of the events of the call exactly one is a bus signal,
    the "device removed" signal of that device. *)
Theorem RemoveDevice_present_cascade p P devID d D s :
  protocols s !! p = Some P → mutex P = false →
  Devices P !! devID = Some d →
  devices s !! d = Some D → device_mutex D = false →
  ∃ s' P' D' t,
    RemoveDevice p devID s = Returned None s'
    ∧ devices s' !! d = Some D' ∧ Items D' = ∅
    ∧ protocols s' !! p = Some P' ∧ Devices P' = delete devID (Devices P)
    ∧ Devices P' !! devID = None
    ∧ trace s' = trace s ++ t
    ∧ List.filter is_signal t = [EmitDeviceRemoved devID].
Proof.
  intros HP Hm Hd HD HDm.
  exists (removed_state p P devID d D s),
    (set_Devices (delete devID (Devices P)) P), (set_Items ∅ D),
    ((DeleteItem d <$> keys (Items D))
       ++ go_events (Callbacks P) (CbRemoveDevice devID)
       ++ [DeleteDevice p devID; EmitDeviceRemoved devID]).
  split; [by apply RemoveDevice_present |].
  split; [apply lookup_insert_eq |].
  split; [done |].
  split; [apply lookup_insert_eq |].
  split; [done |].
  split; [apply lookup_delete_eq |].
  split; [done |].
  rewrite !List.filter_app, filter_signal_DeleteItem, filter_signal_go.
  reflexivity.
Qed.

(** C8: an [AddDevice] call for an id that is not in the map returns
    [false] after it has built a new device object with the given
    attributes, written it into the device map of the protocol under the
    id, and released the mutex.  The write to the device map and the export
    request both come before the "device added" signal, which is the only
    signal of the call and its last event. *)
Theorem AddDevice_signal_after_insert_and_export
    p P devID comID typeID typeVersion options s :
  protocols s !! p = Some P → mutex P = false → Devices P !! devID = None →
  ∃ s' d t,
    AddDevice p devID comID typeID typeVersion options s = Returned (false, None) s'
    ∧ trace s' = trace s ++ t
    ∧ happens_before (SetDevice p devID d) (EmitDeviceAdded devID) t
    ∧ happens_before (ExportDevice devID) (EmitDeviceAdded devID) t
    ∧ List.filter is_signal t = [EmitDeviceAdded devID]
    ∧ last t = Some (EmitDeviceAdded devID)
    ∧ t = [SetDevice p devID d; ExportDevice devID]
          ++ go_events (Callbacks P) (CbAddDevice (Some d))
          ++ [EmitDeviceAdded devID]
    ∧ devices s !! d = None
    ∧ devices s' !! d
      = Some (mkDevice devID comID typeID typeVersion options ∅ false)
    ∧ (∀ d' D', devices s !! d' = Some D' → devices s' !! d' = Some D')
    ∧ ∃ P',
        protocols s' !! p = Some P'
        ∧ Devices P' = <[devID := d]> (Devices P)
        ∧ Devices P' !! devID = Some d
        ∧ mutex P' = false ∧ ready P' = ready P ∧ Callbacks P' = Callbacks P.
Proof.
  intros HP Hm Hd.
  set (d := fresh (dom (devices s))).
  set (cb := go_events (Callbacks P) (CbAddDevice (Some d))).
  assert (Hfresh : devices s !! d = None) by apply not_elem_of_dom, is_fresh.
  exists (added_state p P devID comID typeID typeVersion options s), d,
    ([SetDevice p devID d; ExportDevice devID] ++ cb ++ [EmitDeviceAdded devID]).
  split; [by apply AddDevice_absent |].
  split; [done |].
  split; [by exists [], (ExportDevice devID :: cb), [] |].
  split; [by exists [SetDevice p devID d], cb, [] |].
  split.
  { rewrite !List.filter_app. subst cb. by rewrite filter_signal_go. }
  split; [rewrite app_assoc; apply last_snoc |].
  split; [done |].
  split; [exact Hfresh |].
  split; [apply lookup_insert_eq |].
  split.
  { intros d' D' HD'. cbn. rewrite lookup_insert_ne; [done |].
    intros E. fold d in E. rewrite <- E, Hfresh in HD'. discriminate HD'. }
  exists (set_Devices (<[devID := d]> (Devices P)) P).
  split; [apply lookup_insert_eq |].
  split; [done |].
  split; [apply lookup_insert_eq |].
  done.
Qed.

(** ** The claims about bridges and the log level *)

Section BridgeClaims.

Variable dbusPathPrefix : string.
Variable dbusProtocolInterface : string.
Variable logging_LogLevel : string → Level * option string.

(** C1: [RemoveBridge] of a bridge that owns at least one device does not
    terminate.  The call holds the mutex of the bridge's protocol when it
    calls [RemoveDevice] for the first device, and [RemoveDevice] waits for
    that same mutex: the goroutine is blocked with the bridge still in the
    bridge map, every device still in its map, and no signal emitted. *)
Theorem RemoveBridge_with_device_blocks bridgeID rp R b B s :
  root_Protocol s = Some rp → protocols s !! rp = Some R → mutex R = false →
  Bridges s !! bridgeID = Some b →
  protocols s !! bridge_Protocol b = Some B →
  mutex B = false → Devices B ≠ ∅ →
  ∃ s' B',
    RemoveBridge dbusPathPrefix dbusProtocolInterface bridgeID s = Blocked s'
    ∧ Bridges s' = Bridges s
    ∧ protocols s' !! bridge_Protocol b = Some B'
    ∧ Devices B' = Devices B
    ∧ mutex B' = true
    ∧ devices s' = devices s
    ∧ trace s' = trace s.
Proof.
  intros Hr HR Hm Hb HB HBm HBd. unfold RemoveBridge.
  rewrite bind_gets, Hr. cbn [deref]. rewrite bind_mret.
  step (Lock_free _ _ _ HR Hm).
  rewrite bind_gets. cbn [Bridges put_protocol with_protocols]. rewrite Hb.
  fold (put_protocol rp (set_mutex true R) s).
  set (s1 := put_protocol rp (set_mutex true R) s).
  set (lb := bridge_Protocol b) in *.
  destruct (decide (lb = rp)) as [Heq|Hne].
  - exists s1, (set_mutex true R). split.
    { apply bind_Blocked.
      eapply Lock_held; [rewrite Heq; apply lookup_put_protocol | done]. }
    assert (B = R) as -> by (rewrite Heq, HR in HB; congruence).
    repeat split; try done. rewrite Heq. apply lookup_put_protocol.
  - assert (HB1 : protocols s1 !! lb = Some B)
      by (cbn; by rewrite lookup_insert_ne).
    step (Lock_free _ _ _ HB1 HBm).
    set (s2 := put_protocol lb (set_mutex true B) s1).
    step (get_protocol_eq _ _ _ (lookup_put_protocol lb (set_mutex true B) s1)).
    cbn [Devices set_mutex].
    destruct (keys (Devices B)) as [|k ks] eqn:Hk;
      [by apply keys_empty_iff in Hk |].
    exists s2, (set_mutex true B). split.
    + apply bind_Blocked. cbn [for_range]. do 2 apply bind_Blocked.
      unfold RemoveDevice. apply bind_Blocked.
      eapply Lock_held; [apply lookup_put_protocol | done].
    + repeat split; try done. apply lookup_put_protocol.
Qed.

(** C7: when the id is already in the bridge map, [AddBridge] returns
    [true] and changes nothing.  Otherwise it returns [false] after it has
    created a protocol object that is not ready and owns no device,
    requested its export at the path made of the prefix, the protocol name,
    an underscore and the bridge id, put the bridge in the bridge map, and
    emitted the "bridge added" signal at that path, in this order. *)
Theorem AddBridge_creates_bridge bridgeID rp R c s :
  root_Protocol s = Some rp → protocols s !! rp = Some R → mutex R = false →
  conn s = Some c →
  (is_Some (Bridges s !! bridgeID) →
     AddBridge dbusPathPrefix dbusProtocolInterface bridgeID s
     = Returned (true, None) s)
  ∧ (Bridges s !! bridgeID = None →
     ∃ s' l P,
       let path := dbusPathPrefix +:+ ProtocolName s +:+ "_" +:+ bridgeID in
       AddBridge dbusPathPrefix dbusProtocolInterface bridgeID s
       = Returned (false, None) s'
       ∧ protocols s !! l = None
       ∧ protocols s' !! l = Some P
       ∧ ready P = false ∧ Devices P = ∅
       ∧ Bridges s' = <[bridgeID := mkBridgeProto l]> (Bridges s)
       ∧ trace s' = trace s
           ++ export_events c (Log_Module s) (ObjProtocol l) path dbusProtocolInterface
           ++ [SetBridge bridgeID (mkBridgeProto l);
               ConnEmit path (dbusProtocolInterface +:+ "." +:+ "BridgeAdded")]).
Proof.
  intros Hr HR Hm Hc. split.
  - intros Hb. by apply AddBridge_present with rp R.
  - intros Hb.
    exists (bridge_added_state dbusPathPrefix dbusProtocolInterface c bridgeID s),
      (fresh (dom (protocols s))), (mkProtocol None ∅ false false).
    cbv zeta.
    split; [by apply AddBridge_absent with rp R |].
    split; [apply not_elem_of_dom, is_fresh |].
    split; [apply lookup_insert_eq |].
    done.
Qed.

(** C9 (amended): when the root protocol owns device [d1] and bridge [b1]
    exists and owns no device, [RemoveBridge "b1"] returns and leaves the
    root's device map as it was; [RemoveDevice "d1"] on the root then
    returns after deleting [d1] from the root's map, which is empty when
    [d1] was its only device, with "device removed" as the only signal. *)
Theorem RemoveBridge_then_RemoveDevice rp R c b B d D s :
  root_Protocol s = Some rp → protocols s !! rp = Some R → mutex R = false →
  conn s = Some c →
  Bridges s !! "b1" = Some b →
  protocols s !! bridge_Protocol b = Some B → bridge_Protocol b ≠ rp →
  mutex B = false → Devices B = ∅ →
  Devices R !! "d1" = Some d →
  devices s !! d = Some D → device_mutex D = false →
  ∃ s1 s2 R2 t,
    RemoveBridge dbusPathPrefix dbusProtocolInterface "b1" s = Returned None s1
    ∧ protocols s1 !! rp = Some R
    ∧ RemoveDevice rp "d1" s1 = Returned None s2
    ∧ protocols s2 !! rp = Some R2
    ∧ Devices R2 = delete "d1" (Devices R)
    ∧ (Devices R = {["d1" := d]} → Devices R2 = ∅)
    ∧ trace s2 = trace s1 ++ t
    ∧ List.filter is_signal t = [EmitDeviceRemoved "d1"].
Proof.
  intros Hr HR Hm Hc Hb HB Hne HBm HBd Hd HD HDm.
  set (s1 := bridge_removed_state dbusPathPrefix dbusProtocolInterface "b1" s).
  assert (HR1 : protocols s1 !! rp = Some R) by done.
  assert (HD1 : devices s1 !! d = Some D) by done.
  exists s1, (removed_state rp R "d1" d D s1),
    (set_Devices (delete "d1" (Devices R)) R),
    ((DeleteItem d <$> keys (Items D))
       ++ go_events (Callbacks R) (CbRemoveDevice "d1")
       ++ [DeleteDevice rp "d1"; EmitDeviceRemoved "d1"]).
  split; [by apply RemoveBridge_empty with rp R c b B |].
  split; [done |].
  split; [by apply RemoveDevice_present |].
  split; [apply lookup_insert_eq |].
  split; [done |].
  split; [intros ->; apply delete_singleton_eq |].
  split; [done |].
  rewrite !List.filter_app, filter_signal_DeleteItem, filter_signal_go.
  reflexivity.
Qed.

(** C2: for a string value, when [logging.LogLevel] parses it the callback
    sets the level of the logger's module in the process-wide table, logs
    an informational entry and returns the "invalid argument" bus error;
    when the parse fails it logs the error, leaves the level as it was and
    returns no bus error. *)
Theorem setLogLevel_string c v s :
  Value c = VString v →
  (∀ level, logging_LogLevel v = (level, None) →
     ∃ s', setLogLevel logging_LogLevel c s = Returned (Some ErrMsgInvalidArg) s'
       ∧ levels s' = <[Log_Module s := level]> (levels s)
       ∧ trace s' = trace s
           ++ [LogCall (root_log_Module s) INFO ["Log level has been set to "; v]])
  ∧ (∀ level err, logging_LogLevel v = (level, Some err) →
     ∃ s', setLogLevel logging_LogLevel c s = Returned None s'
       ∧ levels s' = levels s
       ∧ trace s' = trace s ++ [LogCall (root_log_Module s) ERROR [err]]).
Proof.
  intros Hv. split.
  - intros level Hl. unfold setLogLevel. rewrite Hv, Hl.
    eexists. split; [reflexivity |]. done.
  - intros level err Hl. unfold setLogLevel. rewrite Hv, Hl.
    eexists. split; [reflexivity |]. done.
Qed.

(** C10: for a value that is not a string the type assertion of the
    callback panics: the call returns nothing, no bus error either, and no
    effect has happened. *)
Theorem setLogLevel_not_string_panics c s :
  (∀ v, Value c ≠ VString v) →
  setLogLevel logging_LogLevel c s = Panicked s.
Proof.
  intros Hv. unfold setLogLevel. destruct (Value c) eqn:E; try done.
  by destruct (Hv s0).
Qed.

End BridgeClaims.

(** ** Readiness under any sequence of calls *)

(** What every call but [setReady] preserves: a property of the heap of
    protocols that survives a write keeping the readiness flag of the
    object written, and the allocation of an object that is not ready. *)
Section Preservation.

Variable I : gmap loc Protocol → Prop.
Hypothesis I_update : ∀ h p P P',
  I h → h !! p = Some P → ready P' = ready P → I (<[p := P']> h).
Hypothesis I_alloc : ∀ h P',
  I h → ready P' = false → I (<[fresh (dom h) := P']> h).

Lemma preserves_bind {A B} (m : M A) (k : A → M B) :
  preserves I m → (∀ a, preserves I (k a)) → preserves I (m ≫= k).
Proof.
  intros Hm Hk s Hs. specialize (Hm s Hs). unfold mbind, M_bind.
  destruct (m s) as [a s'| s' | s']; cbn in *; [by apply Hk | done | done].
Qed.

Lemma preserves_mret {A} (a : A) : preserves I (mret a).
Proof. by intros s Hs. Qed.

Lemma preserves_gets {A} (f : State → A) : preserves I (gets f).
Proof. by intros s Hs. Qed.

Lemma preserves_block {A} : preserves I (@block A).
Proof. by intros s Hs. Qed.

Lemma preserves_panic {A} : preserves I (@panic A).
Proof. by intros s Hs. Qed.

Lemma preserves_modify f :
  (∀ s, protocols (f s) = protocols s) → preserves I (modify f).
Proof. intros Hf s Hs. cbn. by rewrite Hf. Qed.

Lemma preserves_record e : preserves I (record e).
Proof. by apply preserves_modify. Qed.

Lemma preserves_for_range ks body :
  (∀ k, preserves I (body k)) → preserves I (for_range ks body).
Proof.
  intros Hb. induction ks as [|k ks IH]; cbn [for_range].
  - apply preserves_mret.
  - apply preserves_bind; [apply Hb | by intros _].
Qed.

Lemma preserves_update_protocol p f :
  (∀ P, ready (f P) = ready P) → preserves I (update_protocol p f).
Proof.
  intros Hf s Hs. unfold update_protocol, get_protocol, gets, modify, mbind, M_bind.
  destruct (protocols s !! p) as [P|] eqn:HP; cbn; [| done].
  by apply I_update with P.
Qed.

Lemma preserves_new_Protocol : preserves I new_Protocol.
Proof. intros s Hs. cbn. by apply I_alloc. Qed.

(** [preserves] goals, by the structure of the call. *)
Ltac preserves_tac :=
  repeat first
    [ apply preserves_mret | apply preserves_gets | apply preserves_block
    | apply preserves_panic | apply preserves_record
    | apply preserves_new_Protocol
    | apply preserves_update_protocol; by intros []
    | apply preserves_modify; by intros []
    | apply preserves_for_range; intros ?
    | apply preserves_bind; [| intros ?]
    | match goal with
      | |- preserves _ (match ?x with _ => _ end) => destruct x
      | |- preserves _ (let _ := _ in _) => cbv zeta
      end ].

Lemma preserves_Lock p : preserves I (Lock p).
Proof. unfold Lock, get_protocol. preserves_tac. Qed.

Lemma preserves_Unlock p : preserves I (Unlock p).
Proof. unfold Unlock, get_protocol. preserves_tac. Qed.

Lemma preserves_get_device d : preserves I (get_device d).
Proof. unfold get_device. preserves_tac. Qed.

Lemma preserves_update_device d f : preserves I (update_device d f).
Proof. unfold update_device, get_device. preserves_tac. Qed.

Lemma preserves_get_protocol p : preserves I (get_protocol p).
Proof. unfold get_protocol. preserves_tac. Qed.

Lemma preserves_deref {A} (o : option A) : preserves I (deref o).
Proof. unfold deref. preserves_tac. Qed.

Lemma preserves_device_Lock d : preserves I (device_Lock d).
Proof. unfold device_Lock, update_device, get_device. preserves_tac. Qed.

Lemma preserves_device_Unlock d : preserves I (device_Unlock d).
Proof. unfold device_Unlock, update_device, get_device. preserves_tac. Qed.

(** The same, with the locks and the heap accesses as single steps. *)
Ltac preserves_call :=
  repeat first
    [ apply preserves_Lock | apply preserves_Unlock
    | apply preserves_device_Lock | apply preserves_device_Unlock
    | apply preserves_get_protocol | apply preserves_get_device
    | apply preserves_update_device | apply preserves_deref
    | apply preserves_mret | apply preserves_gets | apply preserves_block
    | apply preserves_panic | apply preserves_record
    | apply preserves_new_Protocol
    | apply preserves_update_protocol; by intros []
    | apply preserves_modify; by intros []
    | apply preserves_for_range; intros ?
    | apply preserves_bind; [| intros ?]
    | match goal with
      | |- preserves _ (match ?x with _ => _ end) => destruct x
      | |- preserves _ (let _ := _ in _) => cbv zeta
      end ].

Lemma preserves_IsReady p : preserves I (IsReady p).
Proof. unfold IsReady. preserves_call. Qed.

Lemma preserves_AddDevice p devID comID typeID typeVersion options :
  preserves I (AddDevice p devID comID typeID typeVersion options).
Proof.
  unfold AddDevice, initDevice, exportDeviceOnDbus, emitDeviceAdded.
  preserves_call.
Qed.

Lemma preserves_RemoveDevice p devID : preserves I (RemoveDevice p devID).
Proof. unfold RemoveDevice, emitDeviceRemoved. preserves_call. Qed.

Section BusCalls.

Variable dbusPathPrefix : string.
Variable dbusProtocolInterface : string.
Variable logging_LogLevel : string → Level * option string.

Lemma preserves_AddBridge bridgeID :
  preserves I (AddBridge dbusPathPrefix dbusProtocolInterface bridgeID).
Proof.
  unfold AddBridge, emitBridgeAdded, conn_Export, conn_Emit, log.
  preserves_call.
Qed.

Lemma preserves_RemoveBridge bridgeID :
  preserves I (RemoveBridge dbusPathPrefix dbusProtocolInterface bridgeID).
Proof.
  unfold RemoveBridge, emitBridgeRemoved, conn_Emit.
  preserves_call; apply preserves_RemoveDevice.
Qed.

Lemma preserves_setLogLevel c : preserves I (setLogLevel logging_LogLevel c).
Proof. unfold setLogLevel, logging_SetLevel, log. preserves_call. Qed.

Lemma preserves_exportRootProtocolObject protocol :
  preserves I (exportRootProtocolObject dbusPathPrefix dbusProtocolInterface protocol).
Proof.
  unfold exportRootProtocolObject, initProtocolProp, logging_GetLevel,
    prop_Export, conn_Export, log.
  preserves_call.
Qed.

(** Every call that is not [setReady] preserves the property. *)
Lemma exec_preserves o s :
  (∀ p, o ≠ OpSetReady p) →
  I (protocols s) →
  I (protocols (exec dbusPathPrefix dbusProtocolInterface logging_LogLevel o s)).
Proof.
  intros Ho Hs. destruct o; cbn [exec].
  - by destruct (Ho p).
  - by apply preserves_IsReady.
  - by apply preserves_AddDevice.
  - by apply preserves_RemoveDevice.
  - by apply preserves_AddBridge.
  - by apply preserves_RemoveBridge.
  - by apply preserves_setLogLevel.
  - by apply preserves_exportRootProtocolObject.
Qed.

End BusCalls.

End Preservation.

Lemma ready_is_update p b h q Q Q' :
  ready_is p b h → h !! q = Some Q → ready Q' = ready Q →
  ready_is p b (<[q := Q']> h).
Proof.
  intros (P & HP & Hb) HQ HQ'. destruct (decide (q = p)) as [->|Hne].
  - exists Q'. rewrite lookup_insert_eq. split; [done |]. congruence.
  - exists P. by rewrite lookup_insert_ne.
Qed.

Lemma ready_is_alloc p b h Q' :
  ready_is p b h → ready Q' = false → ready_is p b (<[fresh (dom h) := Q']> h).
Proof.
  intros (P & HP & Hb) _. exists P. split; [| done].
  rewrite lookup_insert_ne; [done |].
  intros E. apply (is_fresh (dom h)). rewrite E. apply elem_of_dom. by rewrite HP.
Qed.

(** What [setReady] leaves, in each of its three endings. *)
Lemma setReady_state q s :
  state_of (setReady q s)
  = match protocols s !! q with
    | Some Q => if mutex Q then s else put_protocol q (set_ready true Q) s
    | None => s
    end.
Proof.
  destruct (protocols s !! q) as [Q|] eqn:HQ.
  - destruct (mutex Q) eqn:Hm.
    + unfold setReady. by rewrite (bind_Blocked _ _ _ _ (Lock_held _ _ _ HQ Hm)).
    + unfold setReady.
      step (Lock_free _ _ _ HQ Hm).
      step (update_protocol_eq q (set_ready true) _ _
              (lookup_put_protocol q (set_mutex true Q) s)).
      erewrite Unlock_held by (first [apply lookup_put_protocol | reflexivity]).
      cbn [state_of]. rewrite !put_protocol_put_protocol. f_equal.
      unfold set_mutex, set_ready. cbn. by rewrite Hm.
  - unfold setReady, Lock, get_protocol, gets, mbind, M_bind. by rewrite HQ.
Qed.

Lemma setReady_keeps_ready p q s :
  ready_is p true (protocols s) →
  ready_is p true (protocols (state_of (setReady q s))).
Proof.
  intros (P & HP & Hb). rewrite setReady_state.
  destruct (protocols s !! q) as [Q|] eqn:HQ; [| by exists P].
  destruct (mutex Q); [by exists P |].
  destruct (decide (q = p)) as [->|Hne].
  - eexists. split; [apply lookup_put_protocol | done].
  - exists P. by rewrite lookup_put_protocol_ne.
Qed.

Lemma setReady_other p q b s :
  q ≠ p →
  ready_is p b (protocols s) →
  ready_is p b (protocols (state_of (setReady q s))).
Proof.
  intros Hne (P & HP & Hb). rewrite setReady_state.
  destruct (protocols s !! q) as [Q|] eqn:HQ; [| by exists P].
  destruct (mutex Q); [by exists P |].
  exists P. by rewrite lookup_put_protocol_ne.
Qed.

Lemma Op_setReady_or_not (o : Op) :
  (∃ q, o = OpSetReady q) ∨ (∀ q, o ≠ OpSetReady q).
Proof. destruct o; first [left; by eexists | by right]. Qed.

Section ReadinessClaims.

Variable dbusPathPrefix : string.
Variable dbusProtocolInterface : string.
Variable logging_LogLevel : string → Level * option string.

Lemma run_keeps_ready ops p s :
  ready_is p true (protocols s) →
  ready_is p true
    (protocols (run dbusPathPrefix dbusProtocolInterface logging_LogLevel ops s)).
Proof.
  revert s. induction ops as [|o ops IH]; intros s Hs; [done |].
  cbn [run foldl]. apply IH.
  destruct (Op_setReady_or_not o) as [[q ->]|Hno].
  - by apply setReady_keeps_ready.
  - apply (exec_preserves (ready_is p true)); try done.
    + intros. by eapply ready_is_update.
    + intros. by apply ready_is_alloc.
Qed.

Lemma run_keeps_not_ready ops p s :
  OpSetReady p ∉ ops →
  ready_is p false (protocols s) →
  ready_is p false
    (protocols (run dbusPathPrefix dbusProtocolInterface logging_LogLevel ops s)).
Proof.
  revert s. induction ops as [|o ops IH]; intros s Hin Hs; [done |].
  cbn [run foldl]. apply IH; [intros ?; apply Hin; by right |].
  destruct (Op_setReady_or_not o) as [[q ->]|Hno].
  - apply setReady_other; [| done]. intros ->. apply Hin. by left.
  - apply (exec_preserves (ready_is p false)); try done.
    + intros. by eapply ready_is_update.
    + intros. by apply ready_is_alloc.
Qed.

(** A protocol object that a call has created is not ready. *)
Lemma exec_new_not_ready o s q Q :
  protocols s !! q = None →
  protocols (exec dbusPathPrefix dbusProtocolInterface logging_LogLevel o s) !! q
    = Some Q →
  ready Q = false.
Proof.
  intros Hq.
  set (J := λ h : gmap loc Protocol,
         ∀ Q, h !! q = Some Q → ready Q = false).
  assert (HJ : J (protocols s)) by (intros Q'; by rewrite Hq).
  destruct (Op_setReady_or_not o) as [[p ->]|Hno].
  - cbn [exec]. rewrite setReady_state.
    destruct (protocols s !! p) as [P|] eqn:HP; [| by rewrite Hq].
    destruct (mutex P); [by rewrite Hq |].
    rewrite lookup_put_protocol_ne; [by rewrite Hq | congruence].
  - revert Q. apply (exec_preserves J); try done.
    + intros h p P P' Hh HP HP' Q'. destruct (decide (p = q)) as [->|Hne].
      * rewrite lookup_insert_eq. intros [= <-]. rewrite HP'. by apply Hh.
      * rewrite lookup_insert_ne by done. apply Hh.
    + intros h P' Hh HP' Q'. destruct (decide (fresh (dom h) = q)) as [<-|Hne].
      * rewrite lookup_insert_eq. by intros [= <-].
      * rewrite lookup_insert_ne by done. apply Hh.
Qed.

(** C6: the readiness flag starts [false] in every protocol object a call
    creates; [IsReady] returns the flag and changes nothing; [setReady]
    makes it [true]; no sequence of calls makes a flag that is [true]
    [false] again, and none without a [setReady] of that protocol makes a
    flag that is [false] [true]. *)
Theorem ready_false_until_setReady_then_true p P s ops :
  protocols s !! p = Some P →
  (mutex P = false → IsReady p s = Returned (ready P, None) s)
  ∧ (mutex P = false →
     ∃ s' P', setReady p s = Returned tt s'
       ∧ protocols s' !! p = Some P' ∧ ready P' = true
       ∧ IsReady p s' = Returned (true, None) s')
  ∧ (ready P = true →
     ready_is p true
       (protocols (run dbusPathPrefix dbusProtocolInterface logging_LogLevel ops s)))
  ∧ (ready P = false → OpSetReady p ∉ ops →
     ready_is p false
       (protocols (run dbusPathPrefix dbusProtocolInterface logging_LogLevel ops s)))
  ∧ (∀ o q Q,
       protocols s !! q = None →
       protocols (exec dbusPathPrefix dbusProtocolInterface logging_LogLevel o s) !! q
         = Some Q →
       ready Q = false).
Proof.
  intros HP. repeat split.
  - intros Hm. by apply IsReady_free.
  - intros Hm. exists (put_protocol p (set_ready true P) s), (set_ready true P).
    split; [by apply setReady_free |].
    split; [apply lookup_put_protocol |].
    split; [done |].
    by apply (IsReady_free p (set_ready true P)); [apply lookup_put_protocol |].
  - intros Hb. apply run_keeps_ready. by exists P.
  - intros Hb Hin. apply run_keeps_not_ready; [done |]. by exists P.
  - intros o q Q. apply exec_new_not_ready.
Qed.

End ReadinessClaims.

(** * The claims on the sample states *)

Lemma RemoveBridge_with_device_blocks_witness :
  ∃ s' B',
    RemoveBridge "/com/ubiant/" "com.ubiant.Protocol" "b1" st_full = Blocked s'
    ∧ Bridges s' = Bridges st_full
    ∧ protocols s' !! 2%positive = Some B'
    ∧ Devices B' = Devices bridge_one
    ∧ mutex B' = true
    ∧ devices s' = devices st_full
    ∧ trace s' = trace st_full.
Proof.
  apply (RemoveBridge_with_device_blocks "/com/ubiant/" "com.ubiant.Protocol"
           "b1" 1%positive root_one (mkBridgeProto 2) bridge_one st_full);
    try (vm_compute; reflexivity).
  intros H. vm_compute in H. discriminate H.
Defined.

Lemma setLogLevel_string_witness :
  (∃ s', setLogLevel parse_debug (mkChange "com.ubiant.Protocol" "LogLevel" (VString "DEBUG")) st_one
         = Returned (Some ErrMsgInvalidArg) s'
       ∧ levels s' = <["dbus" := DEBUG]> (levels st_one)
       ∧ trace s' = trace st_one
           ++ [LogCall "dbus" INFO ["Log level has been set to "; "DEBUG"]])
  ∧ (∃ s', setLogLevel parse_debug (mkChange "com.ubiant.Protocol" "LogLevel" (VString "loud")) st_one
         = Returned None s'
       ∧ levels s' = levels st_one
       ∧ trace s' = trace st_one
           ++ [LogCall "dbus" ERROR ["logger: invalid log level"]]).
Proof.
  split.
  - apply (proj1 (setLogLevel_string parse_debug
             (mkChange "com.ubiant.Protocol" "LogLevel" (VString "DEBUG"))
             "DEBUG" st_one eq_refl) DEBUG).
    reflexivity.
  - apply (proj2 (setLogLevel_string parse_debug
             (mkChange "com.ubiant.Protocol" "LogLevel" (VString "loud"))
             "loud" st_one eq_refl) ERROR "logger: invalid log level").
    reflexivity.
Defined.

Lemma AddDevice_idempotent_witness :
  AddDevice 1 "d1" "com1" "lamp" "1.0" [] st_one = Returned (true, None) st_one
  ∧ ∃ s1 P1,
      AddDevice 1 "d2" "com2" "lamp" "1.0" [] st_one = Returned (false, None) s1
      ∧ protocols s1 !! 1%positive = Some P1
      ∧ size (Devices P1) = S (size (Devices root_one))
      ∧ AddDevice 1 "d2" "com9" "plug" "2.0" [] s1 = Returned (true, None) s1.
Proof.
  split.
  - apply (proj1 (AddDevice_idempotent 1 root_one "d1" "com1" "lamp" "1.0" []
                    "com1" "lamp" "1.0" [] st_one eq_refl eq_refl)).
    vm_compute. eexists. reflexivity.
  - apply (proj2 (AddDevice_idempotent 1 root_one "d2" "com2" "lamp" "1.0" []
                    "com9" "plug" "2.0" [] st_one eq_refl eq_refl)).
    vm_compute. reflexivity.
Defined.

Lemma RemoveDevice_absent_noop_witness :
  RemoveDevice 1 "d7" st_one = Returned None st_one.
Proof.
  apply (RemoveDevice_absent_noop 1 root_one "d7" st_one);
    vm_compute; reflexivity.
Defined.

Lemma RemoveDevice_present_cascade_witness :
  ∃ s' P' D' t,
    RemoveDevice 1 "d1" st_one = Returned None s'
    ∧ devices s' !! 1%positive = Some D' ∧ Items D' = ∅
    ∧ protocols s' !! 1%positive = Some P'
    ∧ Devices P' = delete "d1" (Devices root_one)
    ∧ Devices P' !! "d1" = None
    ∧ trace s' = trace st_one ++ t
    ∧ List.filter is_signal t = [EmitDeviceRemoved "d1"].
Proof.
  apply (RemoveDevice_present_cascade 1 root_one "d1" 1 dev1 st_one);
    vm_compute; reflexivity.
Defined.

Lemma ready_false_until_setReady_then_true_witness :
  let ops := [OpAddBridge "b2"; OpSetReady 2; OpRemoveDevice 1 "d1";
              OpRemoveBridge "b1"; OpIsReady 1] in
  let st_ready := exec "/com/ubiant/" "com.ubiant.Protocol" parse_debug
                    (OpSetReady 1) st_one in
  IsReady 1 st_one = Returned (false, None) st_one
  ∧ ready_is 1 false
      (protocols (run "/com/ubiant/" "com.ubiant.Protocol" parse_debug ops st_one))
  ∧ ready_is 1 true
      (protocols (run "/com/ubiant/" "com.ubiant.Protocol" parse_debug
                    (OpSetReady 1 :: ops) st_one)).
Proof.
  intros ops st_ready.
  destruct (ready_false_until_setReady_then_true "/com/ubiant/"
              "com.ubiant.Protocol" parse_debug 1 root_one st_one ops eq_refl)
    as (H1 & _ & _ & H4 & _).
  destruct (ready_false_until_setReady_then_true "/com/ubiant/"
              "com.ubiant.Protocol" parse_debug 1 (set_ready true root_one)
              st_ready ops)
    as (_ & _ & H3 & _); [vm_compute; reflexivity |].
  split; [apply H1; reflexivity |].
  split; [apply H4; [reflexivity |] |].
  - intros H. subst ops.
    repeat (apply elem_of_cons in H; destruct H as [H|H]; [discriminate H |]).
    by apply not_elem_of_nil in H.
  - apply H3. reflexivity.
Defined.

Lemma AddBridge_creates_bridge_witness :
  AddBridge "/com/ubiant/" "com.ubiant.Protocol" "b1" st_one
  = Returned (true, None) st_one
  ∧ ∃ s' l P,
      AddBridge "/com/ubiant/" "com.ubiant.Protocol" "b2" st_one
      = Returned (false, None) s'
      ∧ protocols st_one !! l = None
      ∧ protocols s' !! l = Some P
      ∧ ready P = false ∧ Devices P = ∅
      ∧ Bridges s' = <["b2" := mkBridgeProto l]> (Bridges st_one)
      ∧ trace s' = trace st_one
          ++ export_events conn_ok "dbus" (ObjProtocol l) "/com/ubiant/zwave_b2"
               "com.ubiant.Protocol"
          ++ [SetBridge "b2" (mkBridgeProto l);
              ConnEmit "/com/ubiant/zwave_b2" "com.ubiant.Protocol.BridgeAdded"].
Proof.
  split.
  - apply (proj1 (AddBridge_creates_bridge "/com/ubiant/" "com.ubiant.Protocol"
                    "b1" 1 root_one conn_ok st_one eq_refl eq_refl eq_refl eq_refl)).
    vm_compute. eexists. reflexivity.
  - apply (proj2 (AddBridge_creates_bridge "/com/ubiant/" "com.ubiant.Protocol"
                    "b2" 1 root_one conn_ok st_one eq_refl eq_refl eq_refl eq_refl)).
    vm_compute. reflexivity.
Defined.

Lemma AddDevice_signal_after_insert_and_export_witness :
  ∃ s' d t,
    AddDevice 1 "d2" "com2" "lamp" "1.0" [] st_one = Returned (false, None) s'
    ∧ trace s' = trace st_one ++ t
    ∧ happens_before (SetDevice 1 "d2" d) (EmitDeviceAdded "d2") t
    ∧ happens_before (ExportDevice "d2") (EmitDeviceAdded "d2") t
    ∧ List.filter is_signal t = [EmitDeviceAdded "d2"]
    ∧ last t = Some (EmitDeviceAdded "d2")
    ∧ t = [SetDevice 1 "d2" d; ExportDevice "d2"]
          ++ go_events (Callbacks root_one) (CbAddDevice (Some d))
          ++ [EmitDeviceAdded "d2"]
    ∧ devices st_one !! d = None
    ∧ devices s' !! d = Some (mkDevice "d2" "com2" "lamp" "1.0" [] ∅ false)
    ∧ (∀ d' D', devices st_one !! d' = Some D' → devices s' !! d' = Some D')
    ∧ ∃ P',
        protocols s' !! 1%positive = Some P'
        ∧ Devices P' = <["d2" := d]> (Devices root_one)
        ∧ Devices P' !! "d2" = Some d
        ∧ mutex P' = false ∧ ready P' = ready root_one
        ∧ Callbacks P' = Callbacks root_one.
Proof.
  apply (AddDevice_signal_after_insert_and_export 1 root_one "d2" "com2" "lamp"
           "1.0" [] st_one);
    vm_compute; reflexivity.
Defined.

(** When the connection refuses the export, [AddBridge] logs a warning and
    still registers the bridge and emits the signal. *)
Example AddBridge_export_refused :
  trace (state_of (AddBridge "/com/ubiant/" "com.ubiant.Protocol" "b 2"
                     (with_trace [] (mkState (Some conn_refusing) "zwave" "dbus"
                        (Some 1%positive) None "dbus" ∅
                        {[ 1%positive := root_one ]} ∅ ∅ []))))
  = [ConnExport (ObjProtocol 2) "/com/ubiant/zwave_b 2" "com.ubiant.Protocol";
     LogCall "dbus" WARNING
       ["Fail to export Module dbus object"; "dbus: invalid path name"];
     SetBridge "b 2" (mkBridgeProto 2);
     ConnEmit "/com/ubiant/zwave_b 2" "com.ubiant.Protocol.BridgeAdded"].
Proof. vm_compute. reflexivity. Qed.

(** C9, as stated, fails where the root owns a second device: the root owns
    [d1], bridge [b1] exists, both calls return, and the root's device map
    still holds [d2]. *)
Lemma root_devices_not_emptied :
  root_Protocol st_two = Some 1%positive
  ∧ protocols st_two !! 1%positive = Some root_two
  ∧ Devices root_two !! "d1" = Some 1%positive
  ∧ is_Some (Bridges st_two !! "b1")
  ∧ ∃ s1 s2 R2,
      RemoveBridge "/com/ubiant/" "com.ubiant.Protocol" "b1" st_two = Returned None s1
      ∧ RemoveDevice 1 "d1" s1 = Returned None s2
      ∧ protocols s2 !! 1%positive = Some R2
      ∧ Devices R2 !! "d2" = Some 2%positive
      ∧ Devices R2 ≠ ∅.
Proof.
  split; [vm_compute; reflexivity |].
  split; [vm_compute; reflexivity |].
  split; [vm_compute; reflexivity |].
  split; [vm_compute; eexists; reflexivity |].
  exists (state_of (RemoveBridge "/com/ubiant/" "com.ubiant.Protocol" "b1" st_two)),
    (state_of (RemoveDevice 1 "d1"
       (state_of (RemoveBridge "/com/ubiant/" "com.ubiant.Protocol" "b1" st_two)))),
    (mkProtocol (Some (Application 0)) {[ "d2" := 2%positive ]} false false).
  split; [vm_compute; reflexivity |].
  split; [vm_compute; reflexivity |].
  split; [vm_compute; reflexivity |].
  split; [vm_compute; reflexivity |].
  intros H. vm_compute in H. discriminate H.
Qed.

Lemma RemoveBridge_then_RemoveDevice_witness :
  ∃ s1 s2 R2 t,
    RemoveBridge "/com/ubiant/" "com.ubiant.Protocol" "b1" st_one = Returned None s1
    ∧ protocols s1 !! 1%positive = Some root_one
    ∧ RemoveDevice 1 "d1" s1 = Returned None s2
    ∧ protocols s2 !! 1%positive = Some R2
    ∧ Devices R2 = delete "d1" (Devices root_one)
    ∧ (Devices root_one = {["d1" := 1%positive]} → Devices R2 = ∅)
    ∧ trace s2 = trace s1 ++ t
    ∧ List.filter is_signal t = [EmitDeviceRemoved "d1"].
Proof.
  apply (RemoveBridge_then_RemoveDevice "/com/ubiant/" "com.ubiant.Protocol"
           1 root_one conn_ok (mkBridgeProto 2) bridge_empty 1 dev1 st_one);
    try (vm_compute; reflexivity).
  intros H. discriminate H.
Defined.

Lemma setLogLevel_not_string_panics_witness :
  setLogLevel parse_debug (mkChange "com.ubiant.Protocol" "LogLevel" (VInt 3)) st_one
  = Panicked st_one.
Proof.
  apply (setLogLevel_not_string_panics parse_debug).
  intros v H. discriminate H.
Defined.

(** * Further properties *)

(** ** How the calls fail *)

Lemma get_protocol_nil p s :
  protocols s !! p = None → get_protocol p s = Panicked s.
Proof. intros H. unfold get_protocol. rewrite bind_gets. by rewrite H. Qed.

Lemma get_device_nil d s :
  devices s !! d = None → get_device d s = Panicked s.
Proof. intros H. unfold get_device. rewrite bind_gets. by rewrite H. Qed.

Lemma Lock_nil p s : protocols s !! p = None → Lock p s = Panicked s.
Proof. intros H. unfold Lock. by apply bind_Panicked, get_protocol_nil. Qed.

Lemma device_Lock_nil d s : devices s !! d = None → device_Lock d s = Panicked s.
Proof. intros H. unfold device_Lock. by apply bind_Panicked, get_device_nil. Qed.

Lemma device_Lock_held d D s :
  devices s !! d = Some D → device_mutex D = true → device_Lock d s = Blocked s.
Proof.
  intros H Hm. unfold device_Lock. step (get_device_eq _ _ _ H). by rewrite Hm.
Qed.

(** [RemoveDevice] of an id that is not in the map. *)
Lemma RemoveDevice_missing_id p P devID s :
  protocols s !! p = Some P → mutex P = false → Devices P !! devID = None →
  RemoveDevice p devID s = Returned None s.
Proof.
  intros HP Hm Hd. unfold RemoveDevice.
  step (Lock_free _ _ _ HP Hm).
  step (get_protocol_eq _ _ _ (lookup_put_protocol p (set_mutex true P) s)).
  cbn [Devices set_mutex]. rewrite Hd.
  step (Unlock_held _ _ _ (lookup_put_protocol p (set_mutex true P) s) eq_refl).
  by rewrite Lock_Unlock_id.
Qed.

(** [RemoveDevice] of a device whose own mutex is held waits for it with
    the protocol's mutex taken. *)
Lemma RemoveDevice_device_held p P devID d D s :
  protocols s !! p = Some P → mutex P = false →
  Devices P !! devID = Some d →
  devices s !! d = Some D → device_mutex D = true →
  RemoveDevice p devID s = Blocked (put_protocol p (set_mutex true P) s).
Proof.
  intros HP Hm Hd HD HDm. unfold RemoveDevice.
  step (Lock_free _ _ _ HP Hm).
  step (get_protocol_eq _ _ _ (lookup_put_protocol p (set_mutex true P) s)).
  cbn [Devices set_mutex]. rewrite Hd.
  apply bind_Blocked. by apply device_Lock_held with D.
Qed.

(** The four methods of a protocol whose mutex is held. *)
Lemma setReady_held p P s :
  protocols s !! p = Some P → mutex P = true → setReady p s = Blocked s.
Proof. intros HP Hm. unfold setReady. by apply bind_Blocked, Lock_held with P. Qed.

Lemma IsReady_held p P s :
  protocols s !! p = Some P → mutex P = true → IsReady p s = Blocked s.
Proof. intros HP Hm. unfold IsReady. by apply bind_Blocked, Lock_held with P. Qed.

Lemma AddDevice_held p P devID comID typeID typeVersion options s :
  protocols s !! p = Some P → mutex P = true →
  AddDevice p devID comID typeID typeVersion options s = Blocked s.
Proof. intros HP Hm. unfold AddDevice. by apply bind_Blocked, Lock_held with P. Qed.

Lemma RemoveDevice_held p P devID s :
  protocols s !! p = Some P → mutex P = true → RemoveDevice p devID s = Blocked s.
Proof. intros HP Hm. unfold RemoveDevice. by apply bind_Blocked, Lock_held with P. Qed.

(** The four methods of a nil or dangling receiver. *)
Lemma setReady_nil p s : protocols s !! p = None → setReady p s = Panicked s.
Proof. intros HP. unfold setReady. by apply bind_Panicked, Lock_nil. Qed.

Lemma IsReady_nil p s : protocols s !! p = None → IsReady p s = Panicked s.
Proof. intros HP. unfold IsReady. by apply bind_Panicked, Lock_nil. Qed.

Lemma AddDevice_nil p devID comID typeID typeVersion options s :
  protocols s !! p = None →
  AddDevice p devID comID typeID typeVersion options s = Panicked s.
Proof. intros HP. unfold AddDevice. by apply bind_Panicked, Lock_nil. Qed.

Lemma RemoveDevice_nil p devID s :
  protocols s !! p = None → RemoveDevice p devID s = Panicked s.
Proof. intros HP. unfold RemoveDevice. by apply bind_Panicked, Lock_nil. Qed.

(** ** [exportRootProtocolObject] *)

Section RootExport.

Variable dbusPathPrefix : string.
Variable dbusProtocolInterface : string.

Lemma initProtocolProp_eq s :
  initProtocolProp dbusProtocolInterface s
  = Returned (root_props dbusProtocolInterface s) s.
Proof. reflexivity. Qed.

Lemma prop_Export_eq c path spec s :
  conn s = Some c →
  prop_Export path spec s
  = Returned (match prop_export_err c path with
              | Some e => inr e
              | None => inl (path, spec)
              end) (add_trace [PropExport path spec] s).
Proof. intros H. unfold prop_Export. rewrite bind_gets. by rewrite H. Qed.

Lemma log_eq module lvl args s :
  log module lvl args s = Returned tt (add_trace [LogCall (module s) lvl args] s).
Proof. reflexivity. Qed.

Lemma exportRootProtocolObject_nil_conn protocol s :
  conn s = None →
  exportRootProtocolObject dbusPathPrefix dbusProtocolInterface protocol s
  = Returned (None, false)
      (add_trace [LogCall (Log_Module s) WARNING
         ["Unable to export Protocol dbus object because dbus connection nil"]] s).
Proof. intros H. unfold exportRootProtocolObject. rewrite bind_gets, H. reflexivity. Qed.

Local Ltac root_export_done :=
  unfold mret, M_ret, add_trace, put_protocol, with_properties; cbn;
  repeat rewrite <- app_assoc; rewrite ?app_nil_r; reflexivity.

Lemma exportRootProtocolObject_live protocol c s :
  conn s = Some c →
  exportRootProtocolObject dbusPathPrefix dbusProtocolInterface protocol s
  = Returned
      (match export_err c (dbusPathPrefix +:+ protocol) dbusProtocolInterface with
       | None => (Some (fresh (dom (protocols s))), true)
       | Some _ => (None, false)
       end)
      (root_exported_state dbusPathPrefix dbusProtocolInterface c protocol s).
Proof.
  intros Hc. unfold exportRootProtocolObject. rewrite bind_gets, Hc.
  set (l := fresh (dom (protocols s))).
  set (path := dbusPathPrefix +:+ protocol).
  set (new := mkProtocol None ∅ false false).
  assert (Hnew : new_Protocol s = Returned l (put_protocol l new s)) by reflexivity.
  step Hnew.
  step (initProtocolProp_eq (put_protocol l new s)).
  change (root_props dbusProtocolInterface (put_protocol l new s))
    with (root_props dbusProtocolInterface s).
  set (spec := root_props dbusProtocolInterface s).
  step (prop_Export_eq c path spec (put_protocol l new s) Hc).
  unfold root_exported_state. fold l path new spec.
  destruct (prop_export_err c path) as [pe|].
  - rewrite (bind_Returned _ _ _ _ _ (log_eq _ _ _ _)).
    erewrite bind_Returned by (eapply conn_Export_eq; exact Hc).
    unfold export_events.
    destruct (export_err c path dbusProtocolInterface) as [e|] eqn:He.
    + rewrite (bind_Returned _ _ _ _ _ (log_eq _ _ _ _)). root_export_done.
    + erewrite bind_Returned by (eapply conn_Export_eq; exact Hc).
      rewrite He. root_export_done.
  - rewrite bind_modify.
    erewrite bind_Returned by (eapply conn_Export_eq; exact Hc).
    unfold export_events.
    destruct (export_err c path dbusProtocolInterface) as [e|] eqn:He.
    + rewrite (bind_Returned _ _ _ _ _ (log_eq _ _ _ _)). root_export_done.
    + erewrite bind_Returned by (eapply conn_Export_eq; exact Hc).
      rewrite He. root_export_done.
Qed.

End RootExport.

(** ** Health of the registry *)

Lemma is_Some_insert_keep {V} (m : gmap loc V) p x q :
  is_Some (m !! q) → is_Some (<[p := x]> m !! q).
Proof.
  intros H. apply lookup_insert_is_Some.
  destruct (decide (p = q)); [by left | by right].
Qed.

Lemma fresh_lookup_ne {V} (m : gmap loc V) q :
  is_Some (m !! q) → fresh (dom m) ≠ q.
Proof. intros H E. apply (is_fresh (dom m)). rewrite E. by apply elem_of_dom. Qed.

(** A write to the device heap keeps the ids that the device maps rely on
    when it keeps the id of the object it overwrites. *)
Lemma DevID_insert_keep (h : gmap loc Device) d X d' id :
  (∀ D, h !! d = Some D → DevID X = DevID D) →
  DevID <$> h !! d' = Some id → DevID <$> <[d := X]> h !! d' = Some id.
Proof.
  intros HX H. destruct (decide (d = d')) as [->|Hne].
  - rewrite lookup_insert_eq. destruct (h !! d') as [D|] eqn:E; [| done].
    cbn in *. by rewrite (HX D eq_refl).
  - by rewrite lookup_insert_ne.
Qed.

Lemma healthy_frame s s' :
  root_Protocol s' = root_Protocol s → Bridges s' = Bridges s →
  protocols s' = protocols s → devices s' = devices s →
  healthy s → healthy s'.
Proof.
  unfold healthy, quiescent, well_formed. by intros -> -> -> ->.
Qed.

Lemma healthy_put_protocol p P P' s :
  healthy s → protocols s !! p = Some P →
  mutex P' = false → Devices P' = Devices P →
  healthy (put_protocol p P' s).
Proof.
  intros [[Hqp Hqd] (Hw1 & Hw2 & Hw3)] HP Hm HD.
  split; [split | split; [| split]]; cbn.
  - by apply map_Forall_insert_2.
  - done.
  - intros rp Hr. by apply is_Some_insert_keep, Hw1.
  - eapply map_Forall_impl; [exact Hw2 |]. intros id b [H1 H2].
    split; [by apply is_Some_insert_keep | done].
  - apply map_Forall_insert_2; [| done]. rewrite HD. exact (Hw3 p P HP).
Qed.

Lemma healthy_added_state p P devID comID typeID typeVersion options s :
  healthy s → protocols s !! p = Some P →
  healthy (added_state p P devID comID typeID typeVersion options s).
Proof.
  intros [[Hqp Hqd] (Hw1 & Hw2 & Hw3)] HP.
  assert (Hkeep : ∀ d' id, DevID <$> devices s !! d' = Some id →
            DevID <$> <[fresh (dom (devices s)) :=
                          new_device devID comID typeID typeVersion options]>
                        (devices s) !! d' = Some id).
  { intros d' id H. apply DevID_insert_keep; [| done].
    intros D HD. exfalso. apply (is_fresh (dom (devices s))).
    apply elem_of_dom. by rewrite HD. }
  split; [split | split; [| split]]; cbn.
  - apply map_Forall_insert_2; [exact (Hqp p P HP) | done].
  - by apply map_Forall_insert_2.
  - intros rp Hr. by apply is_Some_insert_keep, Hw1.
  - eapply map_Forall_impl; [exact Hw2 |]. intros id b [H1 H2].
    split; [by apply is_Some_insert_keep | done].
  - apply map_Forall_insert_2.
    + cbn. apply map_Forall_insert_2; [by rewrite lookup_insert_eq |].
      eapply map_Forall_impl; [exact (Hw3 p P HP) |]. intros id d'. apply Hkeep.
    + eapply map_Forall_impl; [exact Hw3 |]. intros q Q HQ.
      eapply map_Forall_impl; [exact HQ |]. intros id d'. apply Hkeep.
Qed.

Lemma healthy_removed_state p P devID d D s :
  healthy s → protocols s !! p = Some P → devices s !! d = Some D →
  healthy (removed_state p P devID d D s).
Proof.
  intros [[Hqp Hqd] (Hw1 & Hw2 & Hw3)] HP HD.
  assert (Hkeep : ∀ d' id, DevID <$> devices s !! d' = Some id →
            DevID <$> <[d := set_Items ∅ D]> (devices s) !! d' = Some id).
  { intros d' id H. apply DevID_insert_keep; [| done].
    intros D' HD'. rewrite HD in HD'. by injection HD' as <-. }
  split; [split | split; [| split]]; cbn.
  - apply map_Forall_insert_2; [exact (Hqp p P HP) | done].
  - apply map_Forall_insert_2; [exact (Hqd d D HD) | done].
  - intros rp Hr. by apply is_Some_insert_keep, Hw1.
  - eapply map_Forall_impl; [exact Hw2 |]. intros id b [H1 H2].
    split; [by apply is_Some_insert_keep | done].
  - apply map_Forall_insert_2.
    + cbn. apply map_Forall_delete.
      eapply map_Forall_impl; [exact (Hw3 p P HP) |]. intros id d'. apply Hkeep.
    + eapply map_Forall_impl; [exact Hw3 |]. intros q Q HQ.
      eapply map_Forall_impl; [exact HQ |]. intros id d'. apply Hkeep.
Qed.

(** Allocating a protocol object that owns nothing, and linking bridges to
    objects in the heap that are not the root's, keeps the registry
    healthy. *)
Lemma healthy_alloc_protocol bridges' s :
  healthy s →
  map_Forall (λ _ b,
    is_Some (<[fresh (dom (protocols s)) := mkProtocol None ∅ false false]>
               (protocols s) !! bridge_Protocol b)
    ∧ root_Protocol s ≠ Some (bridge_Protocol b)) bridges' →
  ∀ c n m pr rl lv t,
    healthy (mkState c n m (root_Protocol s) pr rl bridges'
               (<[fresh (dom (protocols s)) := mkProtocol None ∅ false false]>
                  (protocols s))
               (devices s) lv t).
Proof.
  intros [[Hqp Hqd] (Hw1 & Hw2 & Hw3)] Hb c n m pr rl lv t.
  split; [split | split; [| split]]; cbn.
  - by apply map_Forall_insert_2.
  - done.
  - intros rp Hr. by apply is_Some_insert_keep, Hw1.
  - exact Hb.
  - apply map_Forall_insert_2; [apply map_Forall_empty | done].
Qed.

Section BridgeHealth.

Variable dbusPathPrefix : string.
Variable dbusProtocolInterface : string.

Lemma healthy_bridge_added_state c bridgeID s :
  healthy s →
  healthy (bridge_added_state dbusPathPrefix dbusProtocolInterface c bridgeID s).
Proof.
  intros H. unfold bridge_added_state. apply healthy_alloc_protocol; [done |].
  destruct H as [_ (Hw1 & Hw2 & _)].
  apply map_Forall_insert_2.
  - cbn. split; [rewrite lookup_insert_eq; by eexists |].
    intros Hr. by apply (fresh_lookup_ne (protocols s) _ (Hw1 _ Hr)).
  - eapply map_Forall_impl; [exact Hw2 |]. intros id b [H1 H2].
    split; [by apply is_Some_insert_keep | done].
Qed.

Lemma healthy_bridge_removed_state bridgeID s :
  healthy s →
  healthy (bridge_removed_state dbusPathPrefix dbusProtocolInterface bridgeID s).
Proof.
  intros [[Hqp Hqd] (Hw1 & Hw2 & Hw3)].
  split; [split | split; [| split]]; cbn; try done.
  by apply map_Forall_delete.
Qed.

Lemma healthy_root_exported_state c protocol s :
  healthy s →
  healthy (root_exported_state dbusPathPrefix dbusProtocolInterface c protocol s).
Proof.
  intros H. unfold root_exported_state. apply healthy_alloc_protocol; [done |].
  destruct H as [_ (_ & Hw2 & _)].
  eapply map_Forall_impl; [exact Hw2 |]. intros id b [H1 H2].
  split; [by apply is_Some_insert_keep | done].
Qed.

End BridgeHealth.

Section HealthyCalls.

Variable dbusPathPrefix : string.
Variable dbusProtocolInterface : string.
Variable logging_LogLevel : string → Level * option string.

Lemma healthy_mutex_free p P s :
  healthy s → protocols s !! p = Some P → mutex P = false.
Proof. intros [[Hqp _] _] HP. exact (Hqp p P HP). Qed.

Lemma healthy_device p P devID d s :
  healthy s → protocols s !! p = Some P → Devices P !! devID = Some d →
  ∃ D, devices s !! d = Some D ∧ DevID D = devID ∧ device_mutex D = false.
Proof.
  intros [[_ Hqd] (_ & _ & Hw3)] HP Hd.
  pose proof (Hw3 p P HP devID d Hd) as H. cbv beta in H.
  destruct (devices s !! d) as [D|] eqn:E; cbn in H; [| discriminate H].
  exists D. split; [done |]. split; [by injection H | exact (Hqd d D E)].
Qed.

Lemma healthy_bridge bridgeID b rp s :
  healthy s → Bridges s !! bridgeID = Some b → root_Protocol s = Some rp →
  ∃ B, protocols s !! bridge_Protocol b = Some B ∧ bridge_Protocol b ≠ rp.
Proof.
  intros [_ (_ & Hw2 & _)] Hb Hr.
  destruct (Hw2 bridgeID b Hb) as [[B HB] Hne].
  exists B. split; [done |]. intros E. apply Hne. by rewrite Hr, E.
Qed.

(** A call that has what it needs returns from a healthy state and leaves
    a healthy state. *)
Lemma call_healthy o s :
  healthy s → op_pre s o →
  completes dbusPathPrefix dbusProtocolInterface logging_LogLevel o s
  ∧ healthy (exec dbusPathPrefix dbusProtocolInterface logging_LogLevel o s).
Proof.
  intros Hs Hpre. destruct o; cbn [op_pre completes exec] in *.
  - destruct Hpre as [P HP].
    rewrite (setReady_free p P s HP (healthy_mutex_free p P s Hs HP)).
    split; [exact I |].
    apply (healthy_put_protocol p P); [done | done | | done].
    exact (healthy_mutex_free p P s Hs HP).
  - destruct Hpre as [P HP].
    rewrite (IsReady_free p P s HP (healthy_mutex_free p P s Hs HP)).
    by split.
  - destruct Hpre as [P HP].
    pose proof (healthy_mutex_free p P s Hs HP) as Hm.
    destruct (Devices P !! devID) as [d|] eqn:Hd.
    + rewrite (AddDevice_present p P devID comID typeID typeVersion options s HP Hm)
        by (rewrite Hd; by eexists).
      by split.
    + rewrite (AddDevice_absent p P devID comID typeID typeVersion options s HP Hm Hd).
      split; [exact I |]. by apply healthy_added_state.
  - destruct Hpre as [P HP].
    pose proof (healthy_mutex_free p P s Hs HP) as Hm.
    destruct (Devices P !! devID) as [d|] eqn:Hd.
    + destruct (healthy_device p P devID d s Hs HP Hd) as (D & HD & _ & HDm).
      rewrite (RemoveDevice_present p P devID d D s HP Hm Hd HD HDm).
      split; [exact I |]. by apply healthy_removed_state.
    + rewrite (RemoveDevice_missing_id p P devID s HP Hm Hd). by split.
  - destruct Hpre as [[rp Hr] [c Hc]].
    assert (∃ R, protocols s !! rp = Some R) as [R HR]
      by (destruct Hs as [_ (Hw1 & _)]; exact (Hw1 rp Hr)).
    pose proof (healthy_mutex_free rp R s Hs HR) as Hm.
    destruct (Bridges s !! bridgeID) as [b|] eqn:Hb.
    + rewrite (AddBridge_present dbusPathPrefix dbusProtocolInterface bridgeID
                 rp R s Hr HR Hm) by (rewrite Hb; by eexists).
      by split.
    + rewrite (AddBridge_absent dbusPathPrefix dbusProtocolInterface bridgeID
                 rp R c s Hr HR Hm Hc Hb).
      split; [exact I |]. by apply healthy_bridge_added_state.
  - destruct Hpre as ([rp Hr] & [c Hc] & Hempty).
    assert (∃ R, protocols s !! rp = Some R) as [R HR]
      by (destruct Hs as [_ (Hw1 & _)]; exact (Hw1 rp Hr)).
    pose proof (healthy_mutex_free rp R s Hs HR) as Hm.
    destruct (Bridges s !! bridgeID) as [b|] eqn:Hb.
    + destruct (healthy_bridge bridgeID b rp s Hs Hb Hr) as (B & HB & Hne).
      rewrite (RemoveBridge_empty dbusPathPrefix dbusProtocolInterface bridgeID
                 rp R c b B s Hr HR Hm Hc Hb HB Hne
                 (healthy_mutex_free _ B s Hs HB) (Hempty b B eq_refl HB)).
      split; [exact I |]. by apply healthy_bridge_removed_state.
    + rewrite (RemoveBridge_absent dbusPathPrefix dbusProtocolInterface bridgeID
                 rp R s Hr HR Hm Hb).
      by split.
  - destruct Hpre as [v Hv]. unfold setLogLevel. rewrite Hv.
    destruct (logging_LogLevel v) as [level [err|]]; cbn; by split.
  - destruct (conn s) as [c|] eqn:Hc.
    + rewrite (exportRootProtocolObject_live dbusPathPrefix dbusProtocolInterface
                 protocol c s Hc).
      split; [exact I |]. by apply healthy_root_exported_state.
    + rewrite (exportRootProtocolObject_nil_conn dbusPathPrefix dbusProtocolInterface
                 protocol s Hc).
      by split.
Qed.

End HealthyCalls.

(** ** More failing cases *)

(** [RemoveDevice] of an entry whose device pointer is not in the heap
    panics with the protocol's mutex taken. *)
Lemma RemoveDevice_dangling p P devID d s :
  protocols s !! p = Some P → mutex P = false →
  Devices P !! devID = Some d → devices s !! d = None →
  RemoveDevice p devID s = Panicked (put_protocol p (set_mutex true P) s).
Proof.
  intros HP Hm Hd HD. unfold RemoveDevice.
  step (Lock_free _ _ _ HP Hm).
  step (get_protocol_eq _ _ _ (lookup_put_protocol p (set_mutex true P) s)).
  cbn [Devices set_mutex]. rewrite Hd.
  apply bind_Panicked. by apply device_Lock_nil.
Qed.

Section BridgeFailures.

Variable dbusPathPrefix : string.
Variable dbusProtocolInterface : string.

Lemma AddBridge_nil_root bridgeID s :
  root_Protocol s = None →
  AddBridge dbusPathPrefix dbusProtocolInterface bridgeID s = Panicked s.
Proof. intros Hr. unfold AddBridge. rewrite bind_gets, Hr. reflexivity. Qed.

Lemma RemoveBridge_nil_root bridgeID s :
  root_Protocol s = None →
  RemoveBridge dbusPathPrefix dbusProtocolInterface bridgeID s = Panicked s.
Proof. intros Hr. unfold RemoveBridge. rewrite bind_gets, Hr. reflexivity. Qed.

Lemma AddBridge_held bridgeID rp R s :
  root_Protocol s = Some rp → protocols s !! rp = Some R → mutex R = true →
  AddBridge dbusPathPrefix dbusProtocolInterface bridgeID s = Blocked s.
Proof.
  intros Hr HR Hm. unfold AddBridge. rewrite bind_gets, Hr. cbn [deref].
  rewrite bind_mret. by apply bind_Blocked, Lock_held with R.
Qed.

Lemma RemoveBridge_held bridgeID rp R s :
  root_Protocol s = Some rp → protocols s !! rp = Some R → mutex R = true →
  RemoveBridge dbusPathPrefix dbusProtocolInterface bridgeID s = Blocked s.
Proof.
  intros Hr HR Hm. unfold RemoveBridge. rewrite bind_gets, Hr. cbn [deref].
  rewrite bind_mret. by apply bind_Blocked, Lock_held with R.
Qed.

(** The state in which [RemoveBridge] of a bridge with a device is stuck:
    the root's mutex and the bridge protocol's mutex are both taken. *)
Lemma RemoveBridge_stuck bridgeID rp R b B s :
  root_Protocol s = Some rp → protocols s !! rp = Some R → mutex R = false →
  Bridges s !! bridgeID = Some b →
  protocols s !! bridge_Protocol b = Some B → bridge_Protocol b ≠ rp →
  mutex B = false → Devices B ≠ ∅ →
  RemoveBridge dbusPathPrefix dbusProtocolInterface bridgeID s
  = Blocked (put_protocol (bridge_Protocol b) (set_mutex true B)
               (put_protocol rp (set_mutex true R) s)).
Proof.
  intros Hr HR Hm Hb HB Hne HBm HBd. unfold RemoveBridge.
  rewrite bind_gets, Hr. cbn [deref]. rewrite bind_mret.
  step (Lock_free _ _ _ HR Hm).
  rewrite bind_gets. cbn [Bridges put_protocol with_protocols]. rewrite Hb.
  fold (put_protocol rp (set_mutex true R) s).
  set (s1 := put_protocol rp (set_mutex true R) s).
  set (lb := bridge_Protocol b) in *.
  assert (HB1 : protocols s1 !! lb = Some B)
    by (cbn; by rewrite lookup_insert_ne).
  step (Lock_free _ _ _ HB1 HBm).
  step (get_protocol_eq _ _ _ (lookup_put_protocol lb (set_mutex true B) s1)).
  cbn [Devices set_mutex].
  destruct (keys (Devices B)) as [|k ks] eqn:Hk;
    [by apply keys_empty_iff in Hk |].
  apply bind_Blocked. cbn [for_range]. do 2 apply bind_Blocked.
  eapply RemoveDevice_held; [apply lookup_put_protocol | done].
Qed.

End BridgeFailures.

(** ** The heap of devices under any sequence of calls *)

(** What every call preserves: a property of the heap of devices that
    survives a write keeping the identity of the object written, and the
    allocation of an object. *)
Section DevicePreservation.

Variable I : gmap loc Device → Prop.
Hypothesis I_update : ∀ h d D D',
  I h → h !! d = Some D → same_identity D D' → I (<[d := D']> h).
Hypothesis I_alloc : ∀ h D', I h → I (<[fresh (dom h) := D']> h).

Lemma keeps_bind {A B} (m : M A) (k : A → M B) :
  keeps_devices I m → (∀ a, keeps_devices I (k a)) → keeps_devices I (m ≫= k).
Proof.
  intros Hm Hk s Hs. specialize (Hm s Hs). unfold mbind, M_bind.
  destruct (m s) as [a s'| s' | s']; cbn in *; [by apply Hk | done | done].
Qed.

Lemma keeps_mret {A} (a : A) : keeps_devices I (mret a).
Proof. by intros s Hs. Qed.

Lemma keeps_gets {A} (f : State → A) : keeps_devices I (gets f).
Proof. by intros s Hs. Qed.

Lemma keeps_block {A} : keeps_devices I (@block A).
Proof. by intros s Hs. Qed.

Lemma keeps_panic {A} : keeps_devices I (@panic A).
Proof. by intros s Hs. Qed.

Lemma keeps_modify f :
  (∀ s, devices (f s) = devices s) → keeps_devices I (modify f).
Proof. intros Hf s Hs. cbn. by rewrite Hf. Qed.

Lemma keeps_record e : keeps_devices I (record e).
Proof. by apply keeps_modify. Qed.

Lemma keeps_for_range ks body :
  (∀ k, keeps_devices I (body k)) → keeps_devices I (for_range ks body).
Proof.
  intros Hb. induction ks as [|k ks IH]; cbn [for_range].
  - apply keeps_mret.
  - apply keeps_bind; [apply Hb | by intros _].
Qed.

Lemma keeps_update_device d f :
  (∀ D, same_identity D (f D)) → keeps_devices I (update_device d f).
Proof.
  intros Hf s Hs. unfold update_device, get_device, gets, modify, mbind, M_bind.
  destruct (devices s !! d) as [D|] eqn:HD; cbn; [| done].
  by apply I_update with D.
Qed.

Lemma keeps_update_protocol p f : keeps_devices I (update_protocol p f).
Proof.
  intros s Hs. unfold update_protocol, get_protocol, gets, modify, mbind, M_bind.
  by destruct (protocols s !! p).
Qed.

Lemma keeps_initDevice devID comID typeID typeVersion options p :
  keeps_devices I (initDevice devID comID typeID typeVersion options p).
Proof. intros s Hs. cbn. by apply I_alloc. Qed.

Lemma keeps_new_Protocol : keeps_devices I new_Protocol.
Proof. by intros s Hs. Qed.

Ltac keeps_with tac :=
  repeat first
    [ tac
    | apply keeps_mret | apply keeps_gets | apply keeps_block
    | apply keeps_panic | apply keeps_record
    | apply keeps_new_Protocol | apply keeps_initDevice
    | apply keeps_update_protocol
    | apply keeps_update_device; by intros []
    | apply keeps_modify; by intros []
    | apply keeps_for_range; intros ?
    | apply keeps_bind; [| intros ?]
    | match goal with
      | |- keeps_devices _ (match ?x with _ => _ end) => destruct x
      | |- keeps_devices _ (let _ := _ in _) => cbv zeta
      end ].

Ltac keeps_tac := keeps_with fail.

Lemma keeps_setReady p : keeps_devices I (setReady p).
Proof. unfold setReady, Lock, Unlock, get_protocol. keeps_tac. Qed.

Lemma keeps_IsReady p : keeps_devices I (IsReady p).
Proof. unfold IsReady, Lock, Unlock, get_protocol. keeps_tac. Qed.

Lemma keeps_AddDevice p devID comID typeID typeVersion options :
  keeps_devices I (AddDevice p devID comID typeID typeVersion options).
Proof.
  unfold AddDevice, exportDeviceOnDbus, emitDeviceAdded, deref, Lock, Unlock,
    get_protocol, get_device.
  keeps_tac.
Qed.

Lemma keeps_RemoveDevice p devID : keeps_devices I (RemoveDevice p devID).
Proof.
  unfold RemoveDevice, emitDeviceRemoved, device_Lock, device_Unlock, deref,
    Lock, Unlock, get_protocol, get_device.
  keeps_tac.
Qed.

Section BusCallsDevices.

Variable dbusPathPrefix : string.
Variable dbusProtocolInterface : string.
Variable logging_LogLevel : string → Level * option string.

Lemma keeps_AddBridge bridgeID :
  keeps_devices I (AddBridge dbusPathPrefix dbusProtocolInterface bridgeID).
Proof.
  unfold AddBridge, emitBridgeAdded, conn_Export, conn_Emit, log, deref,
    Lock, Unlock, get_protocol.
  keeps_tac.
Qed.

Lemma keeps_RemoveBridge bridgeID :
  keeps_devices I (RemoveBridge dbusPathPrefix dbusProtocolInterface bridgeID).
Proof.
  unfold RemoveBridge, emitBridgeRemoved, conn_Emit, deref, Lock, Unlock,
    get_protocol.
  keeps_with ltac:(apply keeps_RemoveDevice).
Qed.

Lemma keeps_setLogLevel c : keeps_devices I (setLogLevel logging_LogLevel c).
Proof. unfold setLogLevel, logging_SetLevel, log. keeps_tac. Qed.

Lemma keeps_exportRootProtocolObject protocol :
  keeps_devices I
    (exportRootProtocolObject dbusPathPrefix dbusProtocolInterface protocol).
Proof.
  unfold exportRootProtocolObject, initProtocolProp, logging_GetLevel,
    prop_Export, conn_Export, log.
  keeps_tac.
Qed.

Lemma exec_keeps_devices o s :
  I (devices s) →
  I (devices (exec dbusPathPrefix dbusProtocolInterface logging_LogLevel o s)).
Proof.
  intros Hs. destruct o; cbn [exec].
  - by apply keeps_setReady.
  - by apply keeps_IsReady.
  - by apply keeps_AddDevice.
  - by apply keeps_RemoveDevice.
  - by apply keeps_AddBridge.
  - by apply keeps_RemoveBridge.
  - by apply keeps_setLogLevel.
  - by apply keeps_exportRootProtocolObject.
Qed.

Lemma run_keeps_devices ops s :
  I (devices s) →
  I (devices (run dbusPathPrefix dbusProtocolInterface logging_LogLevel ops s)).
Proof.
  revert s. induction ops as [|o ops IH]; intros s Hs; [done |].
  cbn [run foldl]. apply IH. by apply exec_keeps_devices.
Qed.

End BusCallsDevices.

End DevicePreservation.

(** ** Properties of the calls *)

Section MoreProperties.

Variable dbusPathPrefix : string.
Variable dbusProtocolInterface : string.
Variable logging_LogLevel : string → Level * option string.

(** X1: [exportRootProtocolObject] always returns (the loggers it uses are
    not nil in this model).  It reports success
    exactly when it returns a protocol; without a connection it fails after
    one warning and allocates nothing; a protocol it returns is a new object
    that is not ready, owns no device, has no callbacks and a free mutex.
    It never links that protocol to the root object, and never touches the
    bridges, the devices, the levels or a protocol that existed. *)
Theorem exportRootProtocolObject_always_returns protocol s :
  ∃ r ok s',
    exportRootProtocolObject dbusPathPrefix dbusProtocolInterface protocol s
    = Returned (r, ok) s'
    ∧ (ok = true ↔ is_Some r)
    ∧ (conn s = None →
       ok = false ∧ protocols s' = protocols s
       ∧ trace s' = trace s ++ [LogCall (Log_Module s) WARNING
           ["Unable to export Protocol dbus object because dbus connection nil"]])
    ∧ (∀ l, r = Some l →
       protocols s !! l = None
       ∧ protocols s' !! l = Some (mkProtocol None ∅ false false))
    ∧ (∀ q Q, protocols s !! q = Some Q → protocols s' !! q = Some Q)
    ∧ root_Protocol s' = root_Protocol s ∧ Bridges s' = Bridges s
    ∧ devices s' = devices s ∧ levels s' = levels s.
Proof.
  destruct (conn s) as [c|] eqn:Hc.
  - rewrite (exportRootProtocolObject_live _ _ protocol c s Hc).
    set (l := fresh (dom (protocols s))).
    assert (Hl : protocols s !! l = None) by apply not_elem_of_dom, is_fresh.
    assert (Hkeep : ∀ q Q, protocols s !! q = Some Q →
              <[l := mkProtocol None ∅ false false]> (protocols s) !! q = Some Q).
    { intros q Q HQ. rewrite lookup_insert_ne; [done |]. intros ->. congruence. }
    destruct (export_err c (dbusPathPrefix +:+ protocol) dbusProtocolInterface).
    + eexists None, false, _. split; [reflexivity |].
      split; [split; [done | by intros [? ?]] |].
      split; [done |]. split; [done |]. split; [exact Hkeep |]. done.
    + eexists (Some l), true, _. split; [reflexivity |].
      split; [split; [by eexists | done] |].
      split; [done |].
      split. { intros l' [= <-]. split; [done | apply lookup_insert_eq]. }
      split; [exact Hkeep |]. done.
  - rewrite (exportRootProtocolObject_nil_conn _ _ protocol s Hc).
    eexists None, false, _. split; [reflexivity |].
    split; [split; [done | by intros [? ?]] |].
    split; [done |]. split; [done |]. split; [done |]. done.
Qed.

(** X2: with a connection, [exportRootProtocolObject] first exports the
    property table; it records the exported properties when that export
    succeeds, and logs an error and keeps the old ones when it fails,
    without failing itself.  Both object exports use one path and one
    interface: when the connection refuses them it logs a warning after the
    first, returns failure and does not request the export of the root
    object; when it accepts them it requests both, the protocol first. *)
Theorem exportRootProtocolObject_exports protocol c s :
  conn s = Some c →
  let path := dbusPathPrefix +:+ protocol in
  let spec := root_props dbusProtocolInterface s in
  let l := fresh (dom (protocols s)) in
  ∃ r ok s' t,
    exportRootProtocolObject dbusPathPrefix dbusProtocolInterface protocol s
    = Returned (r, ok) s'
    ∧ trace s' = trace s ++ t
    ∧ head t = Some (PropExport path spec)
    ∧ (prop_export_err c path = None → root_properties s' = Some (path, spec))
    ∧ (∀ e, prop_export_err c path = Some e →
         root_properties s' = root_properties s
         ∧ LogCall (Log_Module s) ERROR
             ["Fail to export the properties of the protocol"; e] ∈ t)
    ∧ (export_err c path dbusProtocolInterface = None →
         r = Some l ∧ ok = true
         ∧ happens_before (ConnExport (ObjProtocol l) path dbusProtocolInterface)
             (ConnExport ObjRootProto path dbusProtocolInterface) t)
    ∧ (∀ e, export_err c path dbusProtocolInterface = Some e →
         r = None ∧ ok = false
         ∧ (ConnExport ObjRootProto path dbusProtocolInterface ∉ t)
         ∧ LogCall (Log_Module s) WARNING ["Fail to export Module dbus object"; e] ∈ t).
Proof.
  intros Hc path spec l.
  rewrite (exportRootProtocolObject_live _ _ protocol c s Hc).
  unfold root_exported_state, export_events. fold path spec l.
  assert (Hprops : ∀ e, prop_export_err c path = Some e →
            LogCall (Log_Module s) ERROR
              ["Fail to export the properties of the protocol"; e]
            ∈ match prop_export_err c path with
              | Some e => [LogCall (Log_Module s) ERROR
                             ["Fail to export the properties of the protocol"; e]]
              | None => []
              end).
  { intros e ->. by apply list_elem_of_singleton. }
  destruct (export_err c path dbusProtocolInterface) as [e0|] eqn:He.
  - eexists None, false, _, _. split; [reflexivity |].
    split; [reflexivity |].
    split; [done |].
    split. { by intros ->. }
    split.
    { intros e He'. split; [by rewrite He' |].
      apply elem_of_cons. right. apply elem_of_app. left. by apply Hprops. }
    split; [done |].
    intros e [= <-]. split; [done |]. split; [done |]. split.
    + intros Hin. apply elem_of_cons in Hin as [Hin|Hin]; [discriminate Hin |].
      apply elem_of_app in Hin as [Hin|Hin].
      * destruct (prop_export_err c path); [| by apply not_elem_of_nil in Hin].
        apply list_elem_of_singleton in Hin. discriminate Hin.
      * rewrite app_nil_r in Hin.
        apply elem_of_cons in Hin as [Hin|Hin]; [discriminate Hin |].
        apply list_elem_of_singleton in Hin. discriminate Hin.
    + apply elem_of_cons. right. apply elem_of_app. right.
      rewrite app_nil_r. apply elem_of_cons. right.
      by apply list_elem_of_singleton.
  - eexists (Some l), true, _, _. split; [reflexivity |].
    split; [reflexivity |].
    split; [done |].
    split. { by intros ->. }
    split.
    { intros e He'. split; [by rewrite He' |].
      apply elem_of_cons. right. apply elem_of_app. left. by apply Hprops. }
    split; [| done].
    intros _. split; [done |]. split; [done |].
    eexists (PropExport path spec :: _), [], []. reflexivity.
Qed.

(** X3: the published log level follows the callback.  When the root
    logger and the connection's logger have the same module, the property
    table built after a successful [setLogLevel] carries the name of the
    level just set, as a writable property that emits its changes; after a
    failed parse it carries what it carried before. *)
Theorem setLogLevel_then_initProtocolProp c v level s :
  Value c = VString v →
  (logging_LogLevel v = (level, None) → root_log_Module s = Log_Module s →
     ∃ s1, setLogLevel logging_LogLevel c s = Returned (Some ErrMsgInvalidArg) s1
       ∧ initProtocolProp dbusProtocolInterface s1
         = Returned [(dbusProtocolInterface,
                      [("LogLevel", mkProp (Level_String level) true EmitTrue)])] s1)
  ∧ (∀ err, logging_LogLevel v = (level, Some err) →
     ∃ s1 spec, setLogLevel logging_LogLevel c s = Returned None s1
       ∧ initProtocolProp dbusProtocolInterface s = Returned spec s
       ∧ initProtocolProp dbusProtocolInterface s1 = Returned spec s1).
Proof.
  intros Hv. split.
  - intros Hl Hmod. unfold setLogLevel. rewrite Hv, Hl.
    eexists. split; [reflexivity |].
    rewrite initProtocolProp_eq. f_equal. unfold root_props. cbn.
    by rewrite Hmod, lookup_insert_eq.
  - intros err Hl. unfold setLogLevel. rewrite Hv, Hl.
    eexists _, _. split; [reflexivity |]. split; reflexivity.
Qed.

(** X4: a call on a protocol whose mutex is held waits before it has read
    or written anything: the four methods of the protocol, and [AddBridge]
    and [RemoveBridge] when the protocol is the root's, are blocked in the
    unchanged state. *)
Theorem held_mutex_blocks_without_effect p P s
    devID comID typeID typeVersion options bridgeID :
  protocols s !! p = Some P → mutex P = true →
  setReady p s = Blocked s
  ∧ IsReady p s = Blocked s
  ∧ AddDevice p devID comID typeID typeVersion options s = Blocked s
  ∧ RemoveDevice p devID s = Blocked s
  ∧ (root_Protocol s = Some p →
     AddBridge dbusPathPrefix dbusProtocolInterface bridgeID s = Blocked s
     ∧ RemoveBridge dbusPathPrefix dbusProtocolInterface bridgeID s = Blocked s).
Proof.
  intros HP Hm.
  split; [by apply setReady_held with P |].
  split; [by apply IsReady_held with P |].
  split; [by apply AddDevice_held with P |].
  split; [by apply RemoveDevice_held with P |].
  intros Hr. split.
  - by apply AddBridge_held with p P.
  - by apply RemoveBridge_held with p P.
Qed.

(** X5: [RemoveBridge] of an id that is not in the bridge map returns
    without an error and leaves the whole state as it was. *)
Theorem RemoveBridge_absent_noop bridgeID rp R s :
  root_Protocol s = Some rp → protocols s !! rp = Some R → mutex R = false →
  Bridges s !! bridgeID = None →
  RemoveBridge dbusPathPrefix dbusProtocolInterface bridgeID s = Returned None s.
Proof. apply RemoveBridge_absent. Qed.

(** X6: [RemoveBridge] of a bridge that owns no device returns after it has
    deleted that bridge, and no other, from the bridge map; both mutexes
    are free again, no protocol or device object has changed, and the one
    signal of the call is "bridge removed" at the path of the bridge. *)
Theorem RemoveBridge_empty_bridge bridgeID rp R c b B s :
  root_Protocol s = Some rp → protocols s !! rp = Some R → mutex R = false →
  conn s = Some c →
  Bridges s !! bridgeID = Some b →
  protocols s !! bridge_Protocol b = Some B → bridge_Protocol b ≠ rp →
  mutex B = false → Devices B = ∅ →
  ∃ s' t,
    RemoveBridge dbusPathPrefix dbusProtocolInterface bridgeID s = Returned None s'
    ∧ Bridges s' !! bridgeID = None
    ∧ (∀ id, id ≠ bridgeID → Bridges s' !! id = Bridges s !! id)
    ∧ protocols s' = protocols s ∧ devices s' = devices s
    ∧ trace s' = trace s ++ t
    ∧ List.filter is_signal t
      = [ConnEmit (dbusPathPrefix +:+ ProtocolName s +:+ "_" +:+ bridgeID)
           (dbusProtocolInterface +:+ "." +:+ "BridgeRemoved")].
Proof.
  intros Hr HR Hm Hc Hb HB Hne HBm HBd.
  eexists _, _. split; [by apply RemoveBridge_empty with rp R c b B |].
  split; [apply lookup_delete_eq |].
  split; [intros id Hid; by apply lookup_delete_ne |].
  split; [done |]. split; [done |]. split; [reflexivity |]. reflexivity.
Qed.

Lemma filter_signal_export_events c module obj path iface :
  List.filter is_signal (export_events c module obj path iface) = [].
Proof. unfold export_events. by destruct (export_err c path iface). Qed.

(** X7: [AddBridge] of a new id followed by [RemoveBridge] of that id gives
    the bridge map back as it was; devices and the protocols that existed
    are unchanged; the signals are "bridge added" then "bridge removed", at
    the same path. *)
Theorem AddBridge_then_RemoveBridge bridgeID rp R c s :
  root_Protocol s = Some rp → protocols s !! rp = Some R → mutex R = false →
  conn s = Some c → Bridges s !! bridgeID = None →
  ∃ s1 s2 t,
    AddBridge dbusPathPrefix dbusProtocolInterface bridgeID s
    = Returned (false, None) s1
    ∧ RemoveBridge dbusPathPrefix dbusProtocolInterface bridgeID s1
      = Returned None s2
    ∧ Bridges s2 = Bridges s ∧ devices s2 = devices s
    ∧ (∀ q Q, protocols s !! q = Some Q → protocols s2 !! q = Some Q)
    ∧ trace s2 = trace s ++ t
    ∧ List.filter is_signal t
      = [ConnEmit (dbusPathPrefix +:+ ProtocolName s +:+ "_" +:+ bridgeID)
           (dbusProtocolInterface +:+ "." +:+ "BridgeAdded");
         ConnEmit (dbusPathPrefix +:+ ProtocolName s +:+ "_" +:+ bridgeID)
           (dbusProtocolInterface +:+ "." +:+ "BridgeRemoved")].
Proof.
  intros Hr HR Hm Hc Hb.
  set (s1 := bridge_added_state dbusPathPrefix dbusProtocolInterface c bridgeID s).
  set (l := fresh (dom (protocols s))).
  assert (Hl : l ≠ rp) by (eapply fresh_protocol_ne; eauto).
  assert (HR1 : protocols s1 !! rp = Some R)
    by (cbn; by rewrite lookup_insert_ne).
  assert (HB1 : protocols s1 !! bridge_Protocol (mkBridgeProto l)
                = Some (mkProtocol None ∅ false false))
    by apply lookup_insert_eq.
  set (path := dbusPathPrefix +:+ ProtocolName s +:+ "_" +:+ bridgeID).
  exists s1,
    (bridge_removed_state dbusPathPrefix dbusProtocolInterface bridgeID s1),
    (export_events c (Log_Module s) (ObjProtocol l) path dbusProtocolInterface
       ++ [SetBridge bridgeID (mkBridgeProto l);
           ConnEmit path (dbusProtocolInterface +:+ "." +:+ "BridgeAdded")]
       ++ [DeleteBridge bridgeID;
           ConnEmit path (dbusProtocolInterface +:+ "." +:+ "BridgeRemoved")]).
  split; [by apply AddBridge_absent with rp R |].
  split.
  { apply (RemoveBridge_empty _ _ bridgeID rp R c (mkBridgeProto l)
             (mkProtocol None ∅ false false) s1); try done.
    apply lookup_insert_eq. }
  split; [cbn; by apply delete_insert_id |].
  split; [done |].
  split.
  { intros q Q HQ. cbn. rewrite lookup_insert_ne; [done |].
    intros E. apply (fresh_protocol_ne q Q s HQ). exact E. }
  split.
  { cbn. unfold bridge_path. cbn. fold path l.
    rewrite <- app_assoc. cbn. by rewrite <- app_assoc. }
  rewrite !List.filter_app, filter_signal_export_events. reflexivity.
Qed.

(** X8: [AddDevice] of a new id followed by [RemoveDevice] of that id gives
    the heap of protocols back as it was; the device object stays in the
    heap with its attributes; the signals are "device added" then "device
    removed"; with callbacks, the goroutine of the add callback is started
    before that of the remove callback. *)
Theorem AddDevice_then_RemoveDevice p P devID comID typeID typeVersion options s :
  protocols s !! p = Some P → mutex P = false → Devices P !! devID = None →
  ∃ s1 s2 d t,
    AddDevice p devID comID typeID typeVersion options s = Returned (false, None) s1
    ∧ RemoveDevice p devID s1 = Returned None s2
    ∧ protocols s2 = protocols s
    ∧ devices s !! d = None
    ∧ devices s2 !! d = Some (new_device devID comID typeID typeVersion options)
    ∧ trace s2 = trace s ++ t
    ∧ List.filter is_signal t = [EmitDeviceAdded devID; EmitDeviceRemoved devID]
    ∧ (∀ h, Callbacks P = Some h →
         happens_before (Go h (CbAddDevice (Some d))) (Go h (CbRemoveDevice devID)) t).
Proof.
  intros HP Hm Hd.
  set (s1 := added_state p P devID comID typeID typeVersion options s).
  set (d := fresh (dom (devices s))).
  set (D := new_device devID comID typeID typeVersion options).
  set (P1 := set_Devices (<[devID := d]> (Devices P)) P).
  assert (HP1 : protocols s1 !! p = Some P1) by apply lookup_insert_eq.
  assert (HD1 : devices s1 !! d = Some D) by apply lookup_insert_eq.
  assert (Hd1 : Devices P1 !! devID = Some d) by apply lookup_insert_eq.
  exists s1, (removed_state p P1 devID d D s1), d,
    ([SetDevice p devID d; ExportDevice devID]
       ++ go_events (Callbacks P) (CbAddDevice (Some d))
       ++ [EmitDeviceAdded devID]
       ++ (DeleteItem d <$> keys (Items D))
       ++ go_events (Callbacks P) (CbRemoveDevice devID)
       ++ [DeleteDevice p devID; EmitDeviceRemoved devID]).
  split; [by apply AddDevice_absent |].
  split; [by apply (RemoveDevice_present p P1 devID d D s1) |].
  split.
  { cbn. rewrite insert_insert_eq. unfold set_Devices. cbn.
    rewrite delete_insert_id by done.
    apply insert_id. rewrite HP. by destruct P. }
  split; [apply not_elem_of_dom, is_fresh |].
  split; [cbn; rewrite insert_insert_eq; apply lookup_insert_eq |].
  split.
  { cbn [trace removed_state s1 added_state Callbacks P1 set_Devices].
    fold d D. rewrite <- !app_assoc. reflexivity. }
  split.
  - rewrite !List.filter_app, !filter_signal_go, filter_signal_DeleteItem.
    reflexivity.
  - intros h Hh. rewrite Hh.
    by exists [SetDevice p devID d; ExportDevice devID],
      ([EmitDeviceAdded devID] ++ (DeleteItem d <$> keys (Items D))),
      [DeleteDevice p devID; EmitDeviceRemoved devID].
Qed.

End MoreProperties.

Section MoreProperties2.

Variable dbusPathPrefix : string.
Variable dbusProtocolInterface : string.
Variable logging_LogLevel : string → Level * option string.

(** X9: [AddDevice] and [RemoveDevice] on a protocol never read or write
    another protocol: however the call ends, every other protocol object is
    as it was, and so is the bridge map.  The same device id can thus live
    under the root and under a bridge, independently. *)
Theorem device_calls_touch_one_protocol p q devID comID typeID typeVersion options s :
  q ≠ p →
  let s1 := state_of (AddDevice p devID comID typeID typeVersion options s) in
  let s2 := state_of (RemoveDevice p devID s) in
  protocols s1 !! q = protocols s !! q ∧ Bridges s1 = Bridges s
  ∧ protocols s2 !! q = protocols s !! q ∧ Bridges s2 = Bridges s.
Proof.
  intros Hq s1 s2. subst s1 s2.
  destruct (protocols s !! p) as [P|] eqn:HP.
  2: { rewrite AddDevice_nil, RemoveDevice_nil by done. done. }
  destruct (mutex P) eqn:Hm.
  { rewrite (AddDevice_held p P), (RemoveDevice_held p P) by done. done. }
  assert (Hadd : protocols (state_of (AddDevice p devID comID typeID typeVersion options s)) !! q
                 = protocols s !! q
                 ∧ Bridges (state_of (AddDevice p devID comID typeID typeVersion options s))
                   = Bridges s).
  { destruct (Devices P !! devID) as [d|] eqn:Hd.
    - rewrite (AddDevice_present p P) by (rewrite ?Hd; done). done.
    - rewrite (AddDevice_absent p P) by done. cbn.
      by rewrite lookup_insert_ne. }
  destruct Hadd as [Ha1 Ha2]. split; [done |]. split; [done |].
  destruct (Devices P !! devID) as [d|] eqn:Hd.
  2: { rewrite (RemoveDevice_missing_id p P) by done. done. }
  destruct (devices s !! d) as [D|] eqn:HD.
  2: { rewrite (RemoveDevice_dangling p P devID d) by done.
       cbn [state_of]. by rewrite lookup_put_protocol_ne. }
  destruct (device_mutex D) eqn:HDm.
  - rewrite (RemoveDevice_device_held p P devID d D) by done.
    cbn [state_of]. by rewrite lookup_put_protocol_ne.
  - rewrite (RemoveDevice_present p P devID d D) by done. cbn.
    by rewrite lookup_insert_ne.
Qed.

(** X10: the protocol that [AddBridge] creates has no callbacks: an
    [AddDevice] on the new bridge inserts and exports the device and emits
    the signal, and starts no callback goroutine. *)
Theorem bridge_devices_start_no_callback bridgeID rp R c
    devID comID typeID typeVersion options s :
  root_Protocol s = Some rp → protocols s !! rp = Some R → mutex R = false →
  conn s = Some c → Bridges s !! bridgeID = None →
  ∃ s1 l s2 d,
    AddBridge dbusPathPrefix dbusProtocolInterface bridgeID s
    = Returned (false, None) s1
    ∧ Bridges s1 !! bridgeID = Some (mkBridgeProto l)
    ∧ AddDevice l devID comID typeID typeVersion options s1
      = Returned (false, None) s2
    ∧ trace s2 = trace s1
        ++ [SetDevice l devID d; ExportDevice devID; EmitDeviceAdded devID].
Proof.
  intros Hr HR Hm Hc Hb.
  set (s1 := bridge_added_state dbusPathPrefix dbusProtocolInterface c bridgeID s).
  set (l := fresh (dom (protocols s))).
  set (new := mkProtocol None ∅ false false).
  assert (HB1 : protocols s1 !! l = Some new) by apply lookup_insert_eq.
  exists s1, l, (added_state l new devID comID typeID typeVersion options s1),
    (fresh (dom (devices s1))).
  split; [by apply AddBridge_absent with rp R |].
  split; [apply lookup_insert_eq |].
  split; [by apply AddDevice_absent |].
  reflexivity.
Qed.

(** X11: from a healthy state (no mutex held, no dangling pointer, device
    ids matching their keys) every sequence of calls returns, call after
    call, and leaves a healthy state, provided each call starts with what
    it needs: a receiver in the heap, a root protocol and a connection for
    the bridge calls, no device under the bridge to remove, a string for
    the log level. *)
Theorem healthy_calls_return ops s :
  healthy s →
  callable dbusPathPrefix dbusProtocolInterface logging_LogLevel s ops →
  all_complete dbusPathPrefix dbusProtocolInterface logging_LogLevel s ops
  ∧ healthy (run dbusPathPrefix dbusProtocolInterface logging_LogLevel ops s).
Proof.
  revert s. induction ops as [|o ops IH]; intros s Hs Hc; [done |].
  destruct Hc as [Hpre Hc].
  destruct (call_healthy dbusPathPrefix dbusProtocolInterface logging_LogLevel
              o s Hs Hpre) as [Hdone Hs'].
  destruct (IH _ Hs' Hc) as [Hall Hend].
  split; [split; [exact Hdone | exact Hall] | exact Hend].
Qed.

(** X12: in a healthy state [AddDevice] on a protocol of the heap always
    returns, with a nil error and the flag telling whether the id was in
    the map.  Afterwards the id is in the map and points to a device with
    that id: the one that was there, untouched, or else a new one with the
    given attributes and no item.  No other id of the map has changed. *)
Theorem AddDevice_then_lookup p P devID comID typeID typeVersion options s :
  healthy s → protocols s !! p = Some P →
  ∃ s' P' d D,
    AddDevice p devID comID typeID typeVersion options s
    = Returned (bool_decide (is_Some (Devices P !! devID)), None) s'
    ∧ healthy s'
    ∧ protocols s' !! p = Some P'
    ∧ Devices P' !! devID = Some d
    ∧ devices s' !! d = Some D ∧ DevID D = devID
    ∧ (∀ d0, Devices P !! devID = Some d0 → d = d0 ∧ devices s !! d0 = Some D)
    ∧ (Devices P !! devID = None →
         devices s !! d = None
         ∧ D = mkDevice devID comID typeID typeVersion options ∅ false)
    ∧ (∀ id, id ≠ devID → Devices P' !! id = Devices P !! id).
Proof.
  intros Hs HP. pose proof (healthy_mutex_free p P s Hs HP) as Hm.
  destruct (Devices P !! devID) as [d|] eqn:Hd.
  - destruct (healthy_device p P devID d s Hs HP Hd) as (D & HD & HDid & _).
    exists s, P, d, D.
    rewrite (AddDevice_present p P) by (rewrite ?Hd; done).
    rewrite bool_decide_eq_true_2 by done.
    split; [done |]. split; [done |]. split; [done |]. split; [done |].
    split; [done |]. split; [done |].
    split; [by intros d0 [= <-] |]. split; [done |]. done.
  - exists (added_state p P devID comID typeID typeVersion options s),
      (set_Devices (<[devID := fresh (dom (devices s))]> (Devices P)) P),
      (fresh (dom (devices s))),
      (new_device devID comID typeID typeVersion options).
    rewrite (AddDevice_absent p P) by done.
    rewrite bool_decide_eq_false_2 by (intros [? ?]; done).
    split; [done |]. split; [by apply healthy_added_state |].
    split; [apply lookup_insert_eq |].
    split; [apply lookup_insert_eq |].
    split; [apply lookup_insert_eq |].
    split; [done |]. split; [done |].
    split; [intros _; split; [apply not_elem_of_dom, is_fresh | done] |].
    intros id Hid. cbn. by rewrite lookup_insert_ne.
Qed.

(** X13: in a healthy state [RemoveDevice] on a protocol of the heap never
    fails: it returns a nil error whether or not the id is in the map.
    Afterwards the id is not in the map, no other id has changed, the state
    is healthy, and a second [RemoveDevice] of the id changes nothing. *)
Theorem RemoveDevice_never_fails p P devID s :
  healthy s → protocols s !! p = Some P →
  ∃ s' P',
    RemoveDevice p devID s = Returned None s'
    ∧ healthy s'
    ∧ protocols s' !! p = Some P'
    ∧ Devices P' !! devID = None
    ∧ (∀ id, id ≠ devID → Devices P' !! id = Devices P !! id)
    ∧ RemoveDevice p devID s' = Returned None s'.
Proof.
  intros Hs HP. pose proof (healthy_mutex_free p P s Hs HP) as Hm.
  destruct (Devices P !! devID) as [d|] eqn:Hd.
  - destruct (healthy_device p P devID d s Hs HP Hd) as (D & HD & _ & HDm).
    exists (removed_state p P devID d D s),
      (set_Devices (delete devID (Devices P)) P).
    assert (HP' : protocols (removed_state p P devID d D s) !! p
                  = Some (set_Devices (delete devID (Devices P)) P))
      by apply lookup_insert_eq.
    split; [by apply RemoveDevice_present |].
    split; [by apply healthy_removed_state |].
    split; [done |].
    split; [apply lookup_delete_eq |].
    split; [intros id Hid; cbn; by rewrite lookup_delete_ne |].
    eapply RemoveDevice_missing_id; [exact HP' | done | apply lookup_delete_eq].
  - exists s, P.
    split; [by apply RemoveDevice_missing_id with P |].
    split; [done |]. split; [done |]. split; [done |]. split; [done |].
    by apply RemoveDevice_missing_id with P.
Qed.

(** X14: [exportRootProtocolObject] requests the export of the root object
    but leaves the protocol pointer of that object as it was.  When the
    pointer is nil it is still nil after a successful export, and
    [AddBridge] and [RemoveBridge] then dereference it and panic, with no
    effect: storing the returned protocol is left to the caller. *)
Theorem exported_root_without_protocol_panics protocol c bridgeID s :
  root_Protocol s = None → conn s = Some c →
  export_err c (dbusPathPrefix +:+ protocol) dbusProtocolInterface = None →
  ∃ l s',
    exportRootProtocolObject dbusPathPrefix dbusProtocolInterface protocol s
    = Returned (Some l, true) s'
    ∧ ConnExport ObjRootProto (dbusPathPrefix +:+ protocol) dbusProtocolInterface
      ∈ trace s'
    ∧ root_Protocol s' = None
    ∧ AddBridge dbusPathPrefix dbusProtocolInterface bridgeID s' = Panicked s'
    ∧ RemoveBridge dbusPathPrefix dbusProtocolInterface bridgeID s' = Panicked s'.
Proof.
  intros Hr Hc He.
  exists (fresh (dom (protocols s))),
    (root_exported_state dbusPathPrefix dbusProtocolInterface c protocol s).
  split; [rewrite (exportRootProtocolObject_live _ _ protocol c s Hc); by rewrite He |].
  split.
  { cbn. unfold export_events. rewrite He.
    apply elem_of_app. right. apply elem_of_cons. right.
    apply elem_of_app. right. cbn. apply elem_of_cons. right.
    by apply list_elem_of_singleton. }
  split; [done |].
  split; [by apply AddBridge_nil_root | by apply RemoveBridge_nil_root].
Qed.

(** X15: a device object of the heap stays in the heap with its id,
    communication id, type id, type version and options under every
    sequence of calls, however each call ends; only its items and its mutex
    can change.  A second [AddDevice] with the id of a device never
    overwrites its attributes. *)
Theorem device_identity_is_immutable ops d D s :
  devices s !! d = Some D →
  ∃ D', devices (run dbusPathPrefix dbusProtocolInterface logging_LogLevel ops s) !! d
        = Some D'
      ∧ same_identity D D'.
Proof.
  intros HD.
  apply (run_keeps_devices (λ h, ∃ D', h !! d = Some D' ∧ same_identity D D')).
  - intros h d0 D0 D0' (D' & HD' & Hid) Hd0 Hsame.
    destruct (decide (d0 = d)) as [->|Hne].
    + exists D0'. rewrite lookup_insert_eq. split; [done |].
      rewrite HD' in Hd0. injection Hd0 as <-.
      destruct Hid as (? & ? & ? & ? & ?), Hsame as (? & ? & ? & ? & ?).
      repeat split; congruence.
    + exists D'. by rewrite lookup_insert_ne.
  - intros h D0 (D' & HD' & Hid). exists D'. split; [| done].
    rewrite lookup_insert_ne; [done |].
    intros E. apply (is_fresh (dom h)). rewrite E. apply elem_of_dom. by rewrite HD'.
  - exists D. by repeat split.
Qed.

(** X16: a [RemoveBridge] stuck on a bridge with a device keeps the mutex
    of the root protocol and that of the bridge's protocol.  From then on
    every call on the root or on that bridge waits too: [AddBridge] and
    [RemoveBridge] of any id, and the four methods of both protocols. *)
Theorem stuck_RemoveBridge_blocks_the_registry bridgeID rp R b B s
    bridgeID' devID comID typeID typeVersion options :
  root_Protocol s = Some rp → protocols s !! rp = Some R → mutex R = false →
  Bridges s !! bridgeID = Some b →
  protocols s !! bridge_Protocol b = Some B → bridge_Protocol b ≠ rp →
  mutex B = false → Devices B ≠ ∅ →
  ∃ s',
    RemoveBridge dbusPathPrefix dbusProtocolInterface bridgeID s = Blocked s'
    ∧ AddBridge dbusPathPrefix dbusProtocolInterface bridgeID' s' = Blocked s'
    ∧ RemoveBridge dbusPathPrefix dbusProtocolInterface bridgeID' s' = Blocked s'
    ∧ ∀ p, p = rp ∨ p = bridge_Protocol b →
        AddDevice p devID comID typeID typeVersion options s' = Blocked s'
        ∧ RemoveDevice p devID s' = Blocked s'
        ∧ IsReady p s' = Blocked s'
        ∧ setReady p s' = Blocked s'.
Proof.
  intros Hr HR Hm Hb HB Hne HBm HBd.
  set (s' := put_protocol (bridge_Protocol b) (set_mutex true B)
               (put_protocol rp (set_mutex true R) s)).
  assert (HR' : protocols s' !! rp = Some (set_mutex true R)).
  { subst s'. rewrite lookup_put_protocol_ne by done. apply lookup_put_protocol. }
  assert (HB' : protocols s' !! bridge_Protocol b = Some (set_mutex true B))
    by apply lookup_put_protocol.
  exists s'.
  split; [by apply RemoveBridge_stuck |].
  split; [by apply AddBridge_held with rp (set_mutex true R) |].
  split; [by apply RemoveBridge_held with rp (set_mutex true R) |].
  intros p [-> | ->].
  - split; [by apply AddDevice_held with (set_mutex true R) |].
    split; [by apply RemoveDevice_held with (set_mutex true R) |].
    split; [by apply IsReady_held with (set_mutex true R) |].
    by apply setReady_held with (set_mutex true R).
  - split; [by apply AddDevice_held with (set_mutex true B) |].
    split; [by apply RemoveDevice_held with (set_mutex true B) |].
    split; [by apply IsReady_held with (set_mutex true B) |].
    by apply setReady_held with (set_mutex true B).
Qed.

End MoreProperties2.

(** * The further properties on the sample states *)

Lemma healthy_st_one : healthy st_one.
Proof.
  split; [split | split; [| split]].
  - apply (bool_decide_unpack _). vm_compute. exact I.
  - apply (bool_decide_unpack _). vm_compute. exact I.
  - intros rp [= <-]. vm_compute. by eexists.
  - apply (bool_decide_unpack _). vm_compute. exact I.
  - apply (bool_decide_unpack _). vm_compute. exact I.
Qed.

Lemma exportRootProtocolObject_exports_witness :
  ∃ r ok s' t,
    exportRootProtocolObject "/com/ubiant/" "com.ubiant.Protocol" "zwave" st_refused
    = Returned (r, ok) s'
    ∧ trace s' = trace st_refused ++ t
    ∧ head t = Some (PropExport "/com/ubiant/zwave"
                       (root_props "com.ubiant.Protocol" st_refused))
    ∧ root_properties s' = root_properties st_refused
    ∧ LogCall "dbus" ERROR
        ["Fail to export the properties of the protocol"; "dbus: invalid path name"] ∈ t
    ∧ r = None ∧ ok = false
    ∧ (ConnExport ObjRootProto "/com/ubiant/zwave" "com.ubiant.Protocol" ∉ t)
    ∧ LogCall "dbus" WARNING
        ["Fail to export Module dbus object"; "dbus: invalid path name"] ∈ t.
Proof.
  destruct (exportRootProtocolObject_exports "/com/ubiant/" "com.ubiant.Protocol"
              "zwave" conn_refusing st_refused eq_refl)
    as (r & ok & s' & t & H1 & H2 & H3 & _ & H5 & _ & H7).
  destruct (H5 "dbus: invalid path name" eq_refl) as [H5a H5b].
  destruct (H7 "dbus: invalid path name" eq_refl) as (H7a & H7b & H7c & H7d).
  exists r, ok, s', t. repeat (split; [assumption |]). assumption.
Defined.

Lemma setLogLevel_then_initProtocolProp_witness :
  (∃ s1, setLogLevel parse_debug
           (mkChange "com.ubiant.Protocol" "LogLevel" (VString "DEBUG")) st_one
         = Returned (Some ErrMsgInvalidArg) s1
       ∧ initProtocolProp "com.ubiant.Protocol" s1
         = Returned [("com.ubiant.Protocol",
                      [("LogLevel", mkProp "DEBUG" true EmitTrue)])] s1)
  ∧ (∃ s1 spec, setLogLevel parse_debug
           (mkChange "com.ubiant.Protocol" "LogLevel" (VString "loud")) st_one
         = Returned None s1
       ∧ initProtocolProp "com.ubiant.Protocol" st_one = Returned spec st_one
       ∧ initProtocolProp "com.ubiant.Protocol" s1 = Returned spec s1).
Proof.
  split.
  - apply (proj1 (setLogLevel_then_initProtocolProp "com.ubiant.Protocol" parse_debug
             (mkChange "com.ubiant.Protocol" "LogLevel" (VString "DEBUG"))
             "DEBUG" DEBUG st_one eq_refl)); reflexivity.
  - apply (proj2 (setLogLevel_then_initProtocolProp "com.ubiant.Protocol" parse_debug
             (mkChange "com.ubiant.Protocol" "LogLevel" (VString "loud"))
             "loud" ERROR st_one eq_refl) "logger: invalid log level").
    reflexivity.
Defined.

Lemma held_mutex_blocks_without_effect_witness :
  setReady 1 st_locked = Blocked st_locked
  ∧ IsReady 1 st_locked = Blocked st_locked
  ∧ AddDevice 1 "d2" "com2" "lamp" "1.0" [] st_locked = Blocked st_locked
  ∧ RemoveDevice 1 "d2" st_locked = Blocked st_locked
  ∧ AddBridge "/com/ubiant/" "com.ubiant.Protocol" "b2" st_locked = Blocked st_locked
  ∧ RemoveBridge "/com/ubiant/" "com.ubiant.Protocol" "b2" st_locked = Blocked st_locked.
Proof.
  destruct (held_mutex_blocks_without_effect "/com/ubiant/" "com.ubiant.Protocol"
              1 (mkProtocol (Some (Application 0)) {[ "d1" := 1%positive ]} false true)
              st_locked "d2" "com2" "lamp" "1.0" [] "b2" eq_refl eq_refl)
    as (H1 & H2 & H3 & H4 & H5).
  destruct (H5 eq_refl) as [H6 H7].
  repeat (split; [assumption |]). assumption.
Defined.

Lemma RemoveBridge_absent_noop_witness :
  RemoveBridge "/com/ubiant/" "com.ubiant.Protocol" "b7" st_one = Returned None st_one.
Proof.
  apply (RemoveBridge_absent_noop "/com/ubiant/" "com.ubiant.Protocol" "b7"
           1 root_one st_one); vm_compute; reflexivity.
Defined.

Lemma RemoveBridge_empty_bridge_witness :
  ∃ s' t,
    RemoveBridge "/com/ubiant/" "com.ubiant.Protocol" "b1" st_one = Returned None s'
    ∧ Bridges s' !! "b1" = None
    ∧ (∀ id, id ≠ "b1" → Bridges s' !! id = Bridges st_one !! id)
    ∧ protocols s' = protocols st_one ∧ devices s' = devices st_one
    ∧ trace s' = trace st_one ++ t
    ∧ List.filter is_signal t
      = [ConnEmit "/com/ubiant/zwave_b1" "com.ubiant.Protocol.BridgeRemoved"].
Proof.
  apply (RemoveBridge_empty_bridge "/com/ubiant/" "com.ubiant.Protocol" "b1"
           1 root_one conn_ok (mkBridgeProto 2) bridge_empty st_one);
    try (vm_compute; reflexivity).
  intros H. discriminate H.
Defined.

Lemma AddBridge_then_RemoveBridge_witness :
  ∃ s1 s2 t,
    AddBridge "/com/ubiant/" "com.ubiant.Protocol" "b2" st_one
    = Returned (false, None) s1
    ∧ RemoveBridge "/com/ubiant/" "com.ubiant.Protocol" "b2" s1 = Returned None s2
    ∧ Bridges s2 = Bridges st_one ∧ devices s2 = devices st_one
    ∧ (∀ q Q, protocols st_one !! q = Some Q → protocols s2 !! q = Some Q)
    ∧ trace s2 = trace st_one ++ t
    ∧ List.filter is_signal t
      = [ConnEmit "/com/ubiant/zwave_b2" "com.ubiant.Protocol.BridgeAdded";
         ConnEmit "/com/ubiant/zwave_b2" "com.ubiant.Protocol.BridgeRemoved"].
Proof.
  apply (AddBridge_then_RemoveBridge "/com/ubiant/" "com.ubiant.Protocol" "b2"
           1 root_one conn_ok st_one);
    vm_compute; reflexivity.
Defined.

Lemma AddDevice_then_RemoveDevice_witness :
  ∃ s1 s2 d t,
    AddDevice 1 "d2" "com2" "lamp" "1.0" [] st_one = Returned (false, None) s1
    ∧ RemoveDevice 1 "d2" s1 = Returned None s2
    ∧ protocols s2 = protocols st_one
    ∧ devices st_one !! d = None
    ∧ devices s2 !! d = Some (new_device "d2" "com2" "lamp" "1.0" [])
    ∧ trace s2 = trace st_one ++ t
    ∧ List.filter is_signal t = [EmitDeviceAdded "d2"; EmitDeviceRemoved "d2"]
    ∧ (∀ h, Callbacks root_one = Some h →
         happens_before (Go h (CbAddDevice (Some d))) (Go h (CbRemoveDevice "d2")) t).
Proof.
  apply (AddDevice_then_RemoveDevice 1 root_one "d2" "com2" "lamp" "1.0" [] st_one);
    vm_compute; reflexivity.
Defined.

Lemma device_calls_touch_one_protocol_witness :
  let s1 := state_of (AddDevice 1 "d3" "com3" "plug" "2.0" [] st_full) in
  let s2 := state_of (RemoveDevice 2 "d3" st_full) in
  protocols s1 !! 2%positive = protocols st_full !! 2%positive
  ∧ Bridges s1 = Bridges st_full
  ∧ protocols s2 !! 1%positive = protocols st_full !! 1%positive
  ∧ Bridges s2 = Bridges st_full.
Proof.
  intros s1 s2.
  destruct (device_calls_touch_one_protocol 1 2 "d3" "com3" "plug" "2.0" [] st_full)
    as (H1 & H2 & _); [discriminate |].
  destruct (device_calls_touch_one_protocol 2 1 "d3" "com3" "plug" "2.0" [] st_full)
    as (_ & _ & H3 & H4); [discriminate |].
  repeat (split; [assumption |]). assumption.
Defined.

Lemma bridge_devices_start_no_callback_witness :
  ∃ s1 l s2 d,
    AddBridge "/com/ubiant/" "com.ubiant.Protocol" "b2" st_one
    = Returned (false, None) s1
    ∧ Bridges s1 !! "b2" = Some (mkBridgeProto l)
    ∧ AddDevice l "d1" "com1" "lamp" "1.0" [] s1 = Returned (false, None) s2
    ∧ trace s2 = trace s1
        ++ [SetDevice l "d1" d; ExportDevice "d1"; EmitDeviceAdded "d1"].
Proof.
  apply (bridge_devices_start_no_callback "/com/ubiant/" "com.ubiant.Protocol" "b2"
           1 root_one conn_ok "d1" "com1" "lamp" "1.0" [] st_one);
    vm_compute; reflexivity.
Defined.

Lemma healthy_calls_return_witness :
  let ops := [OpAddBridge "b2"; OpAddDevice 1 "d2" "com2" "lamp" "1.0" [];
              OpRemoveDevice 1 "d1"; OpRemoveBridge "b1"; OpSetReady 2;
              OpIsReady 2;
              OpSetLogLevel (mkChange "com.ubiant.Protocol" "LogLevel" (VString "DEBUG"));
              OpExportRootProtocolObject "zwave"] in
  all_complete "/com/ubiant/" "com.ubiant.Protocol" parse_debug st_one ops
  ∧ healthy (run "/com/ubiant/" "com.ubiant.Protocol" parse_debug ops st_one).
Proof.
  intros ops.
  apply (healthy_calls_return "/com/ubiant/" "com.ubiant.Protocol" parse_debug
           ops st_one healthy_st_one).
  subst ops. cbn [callable op_pre].
  split; [split; vm_compute; by eexists |].
  split; [vm_compute; by eexists |].
  split; [vm_compute; by eexists |].
  split.
  { split; [vm_compute; by eexists |]. split; [vm_compute; by eexists |].
    intros b B Hb HB. vm_compute in Hb. injection Hb as <-.
    vm_compute in HB. injection HB as <-. reflexivity. }
  split; [vm_compute; by eexists |].
  split; [vm_compute; by eexists |].
  split; [by eexists |].
  done.
Defined.

Lemma AddDevice_then_lookup_witness :
  ∃ s' P' d D,
    AddDevice 1 "d1" "com9" "plug" "2.0" [] st_one
    = Returned (bool_decide (is_Some (Devices root_one !! "d1")), None) s'
    ∧ healthy s'
    ∧ protocols s' !! 1%positive = Some P'
    ∧ Devices P' !! "d1" = Some d
    ∧ devices s' !! d = Some D ∧ DevID D = "d1"
    ∧ (∀ d0, Devices root_one !! "d1" = Some d0 → d = d0 ∧ devices st_one !! d0 = Some D)
    ∧ (Devices root_one !! "d1" = None →
         devices st_one !! d = None
         ∧ D = mkDevice "d1" "com9" "plug" "2.0" [] ∅ false)
    ∧ (∀ id, id ≠ "d1" → Devices P' !! id = Devices root_one !! id).
Proof.
  apply (AddDevice_then_lookup 1 root_one "d1" "com9" "plug" "2.0" [] st_one
           healthy_st_one).
  vm_compute. reflexivity.
Defined.

Lemma RemoveDevice_never_fails_witness :
  ∃ s' P',
    RemoveDevice 1 "d1" st_one = Returned None s'
    ∧ healthy s'
    ∧ protocols s' !! 1%positive = Some P'
    ∧ Devices P' !! "d1" = None
    ∧ (∀ id, id ≠ "d1" → Devices P' !! id = Devices root_one !! id)
    ∧ RemoveDevice 1 "d1" s' = Returned None s'.
Proof.
  apply (RemoveDevice_never_fails 1 root_one "d1" st_one healthy_st_one).
  vm_compute. reflexivity.
Defined.

Lemma exported_root_without_protocol_panics_witness :
  ∃ l s',
    exportRootProtocolObject "/com/ubiant/" "com.ubiant.Protocol" "zwave" st_unlinked
    = Returned (Some l, true) s'
    ∧ ConnExport ObjRootProto "/com/ubiant/zwave" "com.ubiant.Protocol" ∈ trace s'
    ∧ root_Protocol s' = None
    ∧ AddBridge "/com/ubiant/" "com.ubiant.Protocol" "b1" s' = Panicked s'
    ∧ RemoveBridge "/com/ubiant/" "com.ubiant.Protocol" "b1" s' = Panicked s'.
Proof.
  apply (exported_root_without_protocol_panics "/com/ubiant/" "com.ubiant.Protocol"
           "zwave" conn_ok "b1" st_unlinked); reflexivity.
Defined.

Lemma device_identity_is_immutable_witness :
  ∃ D', devices (run "/com/ubiant/" "com.ubiant.Protocol" parse_debug
                   [OpAddDevice 1 "d1" "com9" "plug" "2.0" [];
                    OpRemoveDevice 1 "d1"; OpRemoveBridge "b1"] st_one) !! 1%positive
        = Some D'
      ∧ same_identity dev1 D'.
Proof.
  apply (device_identity_is_immutable "/com/ubiant/" "com.ubiant.Protocol"
           parse_debug _ 1 dev1 st_one).
  vm_compute. reflexivity.
Defined.

Lemma stuck_RemoveBridge_blocks_the_registry_witness :
  ∃ s',
    RemoveBridge "/com/ubiant/" "com.ubiant.Protocol" "b1" st_full = Blocked s'
    ∧ AddBridge "/com/ubiant/" "com.ubiant.Protocol" "b2" s' = Blocked s'
    ∧ RemoveBridge "/com/ubiant/" "com.ubiant.Protocol" "b2" s' = Blocked s'
    ∧ ∀ p, p = 1%positive ∨ p = 2%positive →
        AddDevice p "d2" "com2" "lamp" "1.0" [] s' = Blocked s'
        ∧ RemoveDevice p "d2" s' = Blocked s'
        ∧ IsReady p s' = Blocked s'
        ∧ setReady p s' = Blocked s'.
Proof.
  apply (stuck_RemoveBridge_blocks_the_registry "/com/ubiant/" "com.ubiant.Protocol"
           "b1" 1 root_one (mkBridgeProto 2) bridge_one st_full
           "b2" "d2" "com2" "lamp" "1.0" []);
    try (vm_compute; reflexivity).
  - intros H. discriminate H.
  - intros H. vm_compute in H. discriminate H.
Defined.
